(** * Speaky: the recording front end and its boundary with the core

    A shallow embedding of the React component [App] (src/App.tsx), of the
    older Vue component (src/App.vue), of the interfaces of
    src/components/types.ts, and of the frame codec of the streaming
    client, together with the properties the specification states about
    them. *)

From Stdlib Require Import ZArith Lia List String.
From Stdlib.Strings Require Import Byte.
From stdpp Require Import base option list strings pretty gmap.
Import ListNotations.

Local Open Scope string_scope.
Local Open Scope list_scope.
Local Open Scope Z_scope.

(* ===================================================================== *)
(** ** src/components/types.ts *)
(* ===================================================================== *)

(** [export type RecordingState = "idle" | "recording" | "processing"] *)
Inductive RecordingState := idle | recording | processing.

#[global] Instance RecordingState_eq_dec : EqDecision RecordingState.
Proof. solve_decision. Defined.

(** [export type AsrProviderType = "doubao" | "whisper_local" | "whisper_api"] *)
Inductive AsrProviderType := doubao | whisper_local | whisper_api.

(** [export type PostProcessMode = "General" | "Code" | "Meeting"] *)
Inductive PostProcessMode := General | Code | Meeting.

(** [Toast["type"]]: ["success" | "error" | "info"]. *)
Inductive ToastType := success | error | info.

Module DoubaoConfig.
Record t := mk { app_id : string; access_token : string; secret_key : string }.
End DoubaoConfig.

Module WhisperLocalConfig.
Record t := mk
  { model_size : string; language : string; translate_to_english : bool }.
End WhisperLocalConfig.

Module WhisperApiConfig.
Record t := mk
  { api_key : string; api_base : string; model : string;
    language : option string }.
End WhisperApiConfig.

Module AsrConfig.
Record t := mk
  { active_provider : AsrProviderType;
    doubao : option DoubaoConfig.t;
    whisper_local : option WhisperLocalConfig.t;
    whisper_api : option WhisperApiConfig.t }.
End AsrConfig.

Module LlmProvider.
Record t := mk
  { id : string; name : string; api_base : string; api_key : string;
    model : string }.
End LlmProvider.

Module PostProcessConfig.
Record t := mk
  { enabled : bool;
    providers : list LlmProvider.t;
    active_provider_id : string;
    mode : PostProcessMode }.
End PostProcessConfig.

Module Config.
Record t := mk
  { app_id : string;
    access_token : string;
    secret_key : string;
    shortcut : string;
    auto_type : bool;
    auto_copy : bool;
    auto_start : bool;
    silent_start : bool;
    show_indicator : bool;
    realtime_input : bool;
    postprocess : PostProcessConfig.t;
    audio_device : string;
    asr : AsrConfig.t;
    asr_language : string }.
End Config.

Module Toast.
Record t := mk { id : Z; message : string; type : ToastType }.
End Toast.

Module ProviderPreset.
Record t := mk
  { name : string; api_base : string; models : list string;
    default_model : string }.
End ProviderPreset.

(** [PROVIDER_PRESETS : Record<string, ProviderPreset>], in declaration
    order. *)
Definition PROVIDER_PRESETS : list (string * ProviderPreset.t) :=
  [ ("deepseek",
     ProviderPreset.mk "DeepSeek" "https://api.deepseek.com/v1"
       ["deepseek-chat"; "deepseek-reasoner"] "deepseek-chat");
    ("openai",
     ProviderPreset.mk "OpenAI" "https://api.openai.com/v1"
       ["gpt-4o"; "gpt-4o-mini"; "gpt-4-turbo"; "gpt-3.5-turbo"] "gpt-4o-mini");
    ("kimi",
     ProviderPreset.mk "Kimi (Moonshot)" "https://api.moonshot.cn/v1"
       ["moonshot-v1-8k"; "moonshot-v1-32k"; "moonshot-v1-128k"]
       "moonshot-v1-8k");
    ("gemini",
     ProviderPreset.mk "Gemini (Google)"
       "https://generativelanguage.googleapis.com/v1beta/openai"
       ["gemini-2.0-flash"; "gemini-1.5-pro"; "gemini-1.5-flash"]
       "gemini-2.0-flash");
    ("zhipu",
     ProviderPreset.mk "智谱 (GLM)" "https://open.bigmodel.cn/api/paas/v4"
       ["glm-4-flash"; "glm-4-plus"; "glm-4"] "glm-4-flash");
    ("ollama",
     ProviderPreset.mk "Ollama (Local)" "http://localhost:11434/v1"
       ["llama3"; "qwen2"; "mistral"] "llama3") ].

Definition DEFAULT_SHORTCUT : string := "Alt+Space".

(** The initial value of [useState<Config>] in the [App] that imports
    [Config] from components/types.ts (its text follows the types in that
    file); the [App] of src/App.tsx has its own, smaller [Config], see
    [AppConfig] below. *)
Definition initial_config : Config.t :=
  Config.mk "" "" "" DEFAULT_SHORTCUT true true false false true false
    (PostProcessConfig.mk false
       [LlmProvider.mk "default" "DeepSeek" "https://api.deepseek.com/v1" ""
          "deepseek-chat"]
       "default" General)
    ""
    (AsrConfig.mk doubao (Some (DoubaoConfig.mk "" "" "")) None None)
    "zh".

(* ===================================================================== *)
(** ** The component [App] of src/App.tsx *)
(* ===================================================================== *)

(** The backend events [App] subscribes to with [listen], each with its
    [event.payload] (a string wherever the listener reads one). *)
Inductive BackendEvent :=
| recording_started
| recording_stopped (payload : string)
| transcript_update (payload : string)
| error_event (payload : string).

(** How the promise returned by [invoke] settles.  A rejected promise
    carries the command's error; Tauri commands reject with a string, for
    which [String(e)] is [e] itself. *)
Inductive Reply := Resolved | Rejected (e : string).

(** What a handler does to the outside of the component state, in program
    order: the observable trace of one call. *)
Inductive Action :=
| ASetState (s : RecordingState)
| ASetTranscript (text : string)
| AShowToast (message : string) (type : ToastType)
| ASetTimeout (delay : Z) (toast_id : Z)
| AConsoleError (label : string) (e : string)
| AInvoke (cmd : string).

(** The [useState] cells of [App] that the recording flow reads or writes. *)
Record AppState := mkAppState
  { state : RecordingState;
    transcript : string;
    toasts : list Toast.t;
    config : Config.t }.

(** [useState] initial values. *)
Definition initial_AppState : AppState :=
  mkAppState idle "" [] initial_config.

Section WithBackend.
(** The Rust side of the IPC boundary is not part of the front end: it is
    any state [Backend] with any reaction to a command.  A reaction is how
    the promise settles, the events emitted to the window while the
    promise is pending, and the next backend state. *)
Context {Backend : Type}.
Variable invoke_backend :
  string -> Backend -> Reply * list BackendEvent * Backend.

Record World := mkWorld
  { ui : AppState;
    backend : Backend;
    now : Z  (* what [Date.now()] returns *) }.

(** A handler: reads and updates the world, and logs what it did. *)
Definition UI (A : Type) : Type := World -> A * World * list Action.

#[local] Instance UI_ret : MRet UI := fun A (a : A) w => (a, w, []).
#[local] Instance UI_bind : MBind UI := fun A B (k : A -> UI B) (m : UI A) w =>
  let '(a, w1, l1) := m w in
  let '(b, w2, l2) := k a w1 in
  (b, w2, l1 ++ l2).

(** A bare [return;] and the normal end of a handler. *)
Definition done_ : UI unit := mret tt.

Definition tell (a : Action) : UI unit := fun w => (tt, w, [a]).
Definition modify (f : AppState -> AppState) : UI unit := fun w =>
  (tt, mkWorld (f (ui w)) (backend w) (now w), []).
Definition Date_now : UI Z := fun w => (now w, w, []).

Definition setState (s : RecordingState) : UI unit :=
  modify (fun a => mkAppState s (transcript a) (toasts a) (config a));;
  tell (ASetState s).

Definition setTranscript (text : string) : UI unit :=
  modify (fun a => mkAppState (state a) text (toasts a) (config a));;
  tell (ASetTranscript text).

Definition setToasts (f : list Toast.t -> list Toast.t) : UI unit :=
  modify (fun a => mkAppState (state a) (transcript a) (f (toasts a)) (config a)).

Definition console_error (label e : string) : UI unit :=
  tell (AConsoleError label e).

(** [showToast(message, type = "error")]: appends the toast and arms the
    4000 ms timer that removes it (the timer is logged, not run). *)
Definition showToast (message : string) (type : ToastType) : UI unit :=
  id ← Date_now;
  setToasts (fun prev => prev ++ [Toast.mk id message type]);;
  tell (AShowToast message type);;
  tell (ASetTimeout 4000 id).

(** The four listeners registered by [setup]. *)
Definition on_recording_started : UI unit :=
  setState recording;;
  setTranscript "".

Definition on_recording_stopped (payload : string) : UI unit :=
  setState idle;;
  setTranscript payload.

Definition on_transcript_update (payload : string) : UI unit :=
  setTranscript payload.

Definition on_error (payload : string) : UI unit :=
  showToast payload error.

Definition dispatch (ev : BackendEvent) : UI unit :=
  match ev with
  | recording_started => on_recording_started
  | recording_stopped payload => on_recording_stopped payload
  | transcript_update payload => on_transcript_update payload
  | error_event payload => on_error payload
  end.

Fixpoint deliver (evs : list BackendEvent) : UI unit :=
  match evs with
  | [] => done_
  | ev :: evs' => dispatch ev;; deliver evs'
  end.

(** [await invoke(cmd)]: the command reaches the backend, the listeners
    run for the events that arrive while the promise is pending, and the
    handler resumes with how the promise settled. *)
Definition invoke (cmd : string) : UI Reply := fun w =>
  let '(reply, evs, b') := invoke_backend cmd (backend w) in
  let '(_, w', log) := deliver evs (mkWorld (ui w) b' (now w)) in
  (reply, w', AInvoke cmd :: log).

(** [startRecording]; [state] is the value the callback closed over, the
    state of the render it belongs to. *)
Definition startRecording : UI unit := fun w =>
  if decide (state (ui w) <> idle) then done_ w
  else
    (reply ← invoke "start_recording";
     match reply with
     | Resolved => done_
     | Rejected e =>
         console_error "Failed to start recording:" e;;
         showToast e error;;
         setState idle
     end) w.

(** [stopRecording]. *)
Definition stopRecording : UI unit := fun w =>
  if decide (state (ui w) <> recording) then done_ w
  else
    (setState processing;;
     reply ← invoke "stop_recording";
     match reply with
     | Resolved => done_
     | Rejected e =>
         console_error "Failed to stop recording:" e;;
         showToast e error;;
         setState idle
     end) w.

(** The world a handler leaves and the trace of what it did. *)
Definition exec {A} (m : UI A) (w : World) : World := snd (fst (m w)).
Definition log_of {A} (m : UI A) (w : World) : list Action := snd (m w).

End WithBackend.

Arguments World : clear implicits.
Arguments UI : clear implicits.

(* --------------------------------------------------------------------- *)
(** *** Provider management in the post-processing settings *)

(** [Array.prototype.filter] with the two-argument callback
    [(element, index) => ...]. *)
Fixpoint filter_from {A} (f : A -> nat -> bool) (i : nat) (l : list A) : list A :=
  match l with
  | [] => []
  | x :: l' =>
      if f x i then x :: filter_from f (S i) l' else filter_from f (S i) l'
  end.

Definition Array_filter {A} (f : A -> nat -> bool) (l : list A) : list A :=
  filter_from f 0%nat l.

(** [v || ""] for [v : string | undefined]: [undefined] and the empty string
    are the falsy values. *)
Definition or_empty (v : option string) : string :=
  match v with
  | Some s => if decide (s = "") then "" else s
  | None => ""
  end.

(** [{ ...prev, postprocess: { ...prev.postprocess, providers,
        active_provider_id } }] *)
Definition with_providers
    (prev : Config.t) (providers : list LlmProvider.t) (active : string)
  : Config.t :=
  let pp := Config.postprocess prev in
  Config.mk
    (Config.app_id prev) (Config.access_token prev) (Config.secret_key prev)
    (Config.shortcut prev) (Config.auto_type prev) (Config.auto_copy prev)
    (Config.auto_start prev) (Config.silent_start prev)
    (Config.show_indicator prev) (Config.realtime_input prev)
    (PostProcessConfig.mk (PostProcessConfig.enabled pp) providers active
       (PostProcessConfig.mode pp))
    (Config.audio_device prev) (Config.asr prev) (Config.asr_language prev).

(** A JavaScript exception escaping a handler. *)
Inductive Exception := TypeError.

(** [deleteProvider(index)].  [config] is the render's configuration; the
    result is the updater handed to [setConfig], or the [TypeError] raised
    by [provider.id] when [providers[index]] is [undefined]. *)
Definition deleteProvider (config : Config.t) (index : nat)
  : Exception + (Config.t -> Config.t) :=
  let pp := Config.postprocess config in
  let provider := PostProcessConfig.providers pp !! index in
  let newProviders :=
    Array_filter (fun _ i => negb (Nat.eqb i index)) (PostProcessConfig.providers pp) in
  match provider with
  | None => inl TypeError
  | Some provider =>
      let newActiveId :=
        if decide (PostProcessConfig.active_provider_id pp = LlmProvider.id provider)
        then or_empty (LlmProvider.id <$> newProviders !! 0%nat)
        else PostProcessConfig.active_provider_id pp in
      inr (fun prev => with_providers prev newProviders newActiveId)
  end.

(** [PROVIDER_PRESETS[presetKey]] for the keys a caller passes, those of
    the table and those of nothing.  (A key that [Object.prototype]
    supplies, such as [constructor], reads as a truthy value that is no
    preset; the add menu passes table keys only.) *)
Fixpoint preset_lookup (key : string) (l : list (string * ProviderPreset.t))
  : option ProviderPreset.t :=
  match l with
  | [] => None
  | (k, v) :: l' => if decide (k = key) then Some v else preset_lookup key l'
  end.

(** [addProviderFromPreset(presetKey)] with [Date.now()] returning
    [date_now]: the updater handed to [setConfig], or none when the key
    names no preset. *)
Definition addProviderFromPreset (presetKey : string) (date_now : Z)
  : option (Config.t -> Config.t) :=
  match preset_lookup presetKey PROVIDER_PRESETS with
  | None => None
  | Some preset =>
      let newProvider :=
        LlmProvider.mk
          (String.append presetKey (String.append "-" (pretty.pretty date_now)))
          (ProviderPreset.name preset) (ProviderPreset.api_base preset) ""
          (ProviderPreset.default_model preset) in
      Some (fun prev =>
        let pp := Config.postprocess prev in
        with_providers prev
          (PostProcessConfig.providers pp ++ [newProvider])
          (if decide (length (PostProcessConfig.providers pp) = 0%nat)
           then LlmProvider.id newProvider
           else PostProcessConfig.active_provider_id pp))
  end.

(* ===================================================================== *)
(** ** The component of src/App.vue *)
(* ===================================================================== *)

Module Vue.
(** The [ref]s of the script the listeners write. *)
Record AppState := mkAppState
  { isRecording : bool;
    isProcessing : bool;
    transcript : string;
    showSettings : bool }.

Definition initial_AppState : AppState := mkAppState false false "" false.

(** The three listeners registered in [onMounted]. *)
Definition on_recording_started (a : AppState) : AppState :=
  mkAppState true false "" (showSettings a).

Definition on_recording_stopped (payload : string) (a : AppState) : AppState :=
  mkAppState false false payload (showSettings a).

Definition on_transcript_update (payload : string) (a : AppState) : AppState :=
  mkAppState (isRecording a) (isProcessing a) payload (showSettings a).
End Vue.

(* ===================================================================== *)
(** ** Configuration values on the IPC boundary *)
(* ===================================================================== *)

(** [get_config] and [update_config] carry a [Config] across the boundary
    as a JSON object: one member per property, in declaration order, an
    optional property left out when it is [undefined]. *)
#[local] Set Warnings "-register-all".
Inductive Json :=
| JString (s : string)
| JBool (b : bool)
| JArray (items : list Json)
| JObject (members : list (string * Json)).

Definition optional_member {A} (key : string) (f : A -> Json) (v : option A)
  : list (string * Json) :=
  match v with
  | Some x => [(key, f x)]
  | None => []
  end.

Definition AsrProviderType_to_json (p : AsrProviderType) : Json :=
  JString match p with
          | doubao => "doubao"
          | whisper_local => "whisper_local"
          | whisper_api => "whisper_api"
          end.

Definition PostProcessMode_to_json (m : PostProcessMode) : Json :=
  JString match m with
          | General => "General"
          | Code => "Code"
          | Meeting => "Meeting"
          end.

Definition DoubaoConfig_to_json (c : DoubaoConfig.t) : Json :=
  JObject
    [ ("app_id", JString (DoubaoConfig.app_id c));
      ("access_token", JString (DoubaoConfig.access_token c));
      ("secret_key", JString (DoubaoConfig.secret_key c)) ].

Definition WhisperLocalConfig_to_json (c : WhisperLocalConfig.t) : Json :=
  JObject
    [ ("model_size", JString (WhisperLocalConfig.model_size c));
      ("language", JString (WhisperLocalConfig.language c));
      ("translate_to_english", JBool (WhisperLocalConfig.translate_to_english c)) ].

Definition WhisperApiConfig_to_json (c : WhisperApiConfig.t) : Json :=
  JObject
    ([ ("api_key", JString (WhisperApiConfig.api_key c));
       ("api_base", JString (WhisperApiConfig.api_base c));
       ("model", JString (WhisperApiConfig.model c)) ]
     ++ optional_member "language" JString (WhisperApiConfig.language c)).

Definition AsrConfig_to_json (c : AsrConfig.t) : Json :=
  JObject
    ([ ("active_provider", AsrProviderType_to_json (AsrConfig.active_provider c)) ]
     ++ optional_member "doubao" DoubaoConfig_to_json (AsrConfig.doubao c)
     ++ optional_member "whisper_local" WhisperLocalConfig_to_json
          (AsrConfig.whisper_local c)
     ++ optional_member "whisper_api" WhisperApiConfig_to_json
          (AsrConfig.whisper_api c)).

Definition LlmProvider_to_json (p : LlmProvider.t) : Json :=
  JObject
    [ ("id", JString (LlmProvider.id p));
      ("name", JString (LlmProvider.name p));
      ("api_base", JString (LlmProvider.api_base p));
      ("api_key", JString (LlmProvider.api_key p));
      ("model", JString (LlmProvider.model p)) ].

Definition PostProcessConfig_to_json (c : PostProcessConfig.t) : Json :=
  JObject
    [ ("enabled", JBool (PostProcessConfig.enabled c));
      ("providers", JArray (map LlmProvider_to_json (PostProcessConfig.providers c)));
      ("active_provider_id", JString (PostProcessConfig.active_provider_id c));
      ("mode", PostProcessMode_to_json (PostProcessConfig.mode c)) ].

Definition Config_to_json (c : Config.t) : Json :=
  JObject
    [ ("app_id", JString (Config.app_id c));
      ("access_token", JString (Config.access_token c));
      ("secret_key", JString (Config.secret_key c));
      ("shortcut", JString (Config.shortcut c));
      ("auto_type", JBool (Config.auto_type c));
      ("auto_copy", JBool (Config.auto_copy c));
      ("auto_start", JBool (Config.auto_start c));
      ("silent_start", JBool (Config.silent_start c));
      ("show_indicator", JBool (Config.show_indicator c));
      ("realtime_input", JBool (Config.realtime_input c));
      ("postprocess", PostProcessConfig_to_json (Config.postprocess c));
      ("audio_device", JString (Config.audio_device c));
      ("asr", AsrConfig_to_json (Config.asr c));
      ("asr_language", JString (Config.asr_language c)) ].

(** The member names of an object (none for any other value). *)
Definition keys (j : Json) : list string :=
  match j with
  | JObject members => map fst members
  | _ => []
  end.

(** [j[key]] *)
Definition member (key : string) (j : Json) : option Json :=
  match j with
  | JObject members => snd <$> List.find (fun m => String.eqb (fst m) key) members
  | _ => None
  end.

Definition is_object (j : Json) : bool :=
  match j with JObject _ => true | _ => false end.

Definition mem_string (s : string) (l : list string) : bool :=
  existsb (String.eqb s) l.

(** An object with exactly the given members: every [required] name is
    present, and every name present is [required] or [optional]. *)
Definition has_exactly (required optional : list string) (j : Json) : bool :=
  is_object j
  && forallb (fun k => mem_string k (keys j)) required
  && forallb (fun k => mem_string k (required ++ optional)) (keys j).


(** [interface Config] of src/App.tsx, with the [PostProcessConfig] and
    [LlmProvider] that file declares, which are those of
    components/types.ts. *)
Module AppConfig.
Record t := mk
  { app_id : string;
    access_token : string;
    secret_key : string;
    shortcut : string;
    auto_type : bool;
    auto_copy : bool;
    auto_start : bool;
    silent_start : bool;
    show_indicator : bool;
    realtime_input : bool;
    postprocess : PostProcessConfig.t;
    audio_device : string }.
End AppConfig.

(** The initial value of [useState<Config>] in src/App.tsx. *)
Definition App_initial_config : AppConfig.t :=
  AppConfig.mk "" "" "" DEFAULT_SHORTCUT true true false false true false
    (PostProcessConfig.mk false
       [LlmProvider.mk "default" "DeepSeek" "https://api.deepseek.com/v1" ""
          "deepseek-chat"]
       "default" General)
    "".

Definition AppConfig_to_json (c : AppConfig.t) : Json :=
  JObject
    [ ("app_id", JString (AppConfig.app_id c));
      ("access_token", JString (AppConfig.access_token c));
      ("secret_key", JString (AppConfig.secret_key c));
      ("shortcut", JString (AppConfig.shortcut c));
      ("auto_type", JBool (AppConfig.auto_type c));
      ("auto_copy", JBool (AppConfig.auto_copy c));
      ("auto_start", JBool (AppConfig.auto_start c));
      ("silent_start", JBool (AppConfig.silent_start c));
      ("show_indicator", JBool (AppConfig.show_indicator c));
      ("realtime_input", JBool (AppConfig.realtime_input c));
      ("postprocess", PostProcessConfig_to_json (AppConfig.postprocess c));
      ("audio_device", JString (AppConfig.audio_device c)) ].

(** The type of the [config] ref of src/App.vue, [typeof config.value]. *)
Module VueConfig.
Record t := mk
  { app_id : string;
    access_token : string;
    secret_key : string;
    shortcut : string;
    auto_type : bool;
    auto_copy : bool }.
End VueConfig.

(** The initial value of the [config] ref. *)
Definition Vue_initial_config : VueConfig.t :=
  VueConfig.mk "" "" "" "Alt+Space" true true.

Definition VueConfig_to_json (c : VueConfig.t) : Json :=
  JObject
    [ ("app_id", JString (VueConfig.app_id c));
      ("access_token", JString (VueConfig.access_token c));
      ("secret_key", JString (VueConfig.secret_key c));
      ("shortcut", JString (VueConfig.shortcut c));
      ("auto_type", JBool (VueConfig.auto_type c));
      ("auto_copy", JBool (VueConfig.auto_copy c)) ].

(** The object literals the three components start from, as written in
    the sources. *)
Definition Vue_config_literal : Json :=
  JObject
    [ ("app_id", JString ""); ("access_token", JString "");
      ("secret_key", JString ""); ("shortcut", JString "Alt+Space");
      ("auto_type", JBool true); ("auto_copy", JBool true) ].

Definition postprocess_literal : Json :=
  JObject
    [ ("enabled", JBool false);
      ("providers",
       JArray
         [ JObject
             [ ("id", JString "default"); ("name", JString "DeepSeek");
               ("api_base", JString "https://api.deepseek.com/v1");
               ("api_key", JString ""); ("model", JString "deepseek-chat") ] ]);
      ("active_provider_id", JString "default");
      ("mode", JString "General") ].

Definition App_config_literal : Json :=
  JObject
    [ ("app_id", JString ""); ("access_token", JString "");
      ("secret_key", JString ""); ("shortcut", JString "Alt+Space");
      ("auto_type", JBool true); ("auto_copy", JBool true);
      ("auto_start", JBool false); ("silent_start", JBool false);
      ("show_indicator", JBool true); ("realtime_input", JBool false);
      ("postprocess", postprocess_literal);
      ("audio_device", JString "") ].

Definition types_config_literal : Json :=
  JObject
    [ ("app_id", JString ""); ("access_token", JString "");
      ("secret_key", JString ""); ("shortcut", JString "Alt+Space");
      ("auto_type", JBool true); ("auto_copy", JBool true);
      ("auto_start", JBool false); ("silent_start", JBool false);
      ("show_indicator", JBool true); ("realtime_input", JBool false);
      ("postprocess", postprocess_literal);
      ("audio_device", JString "");
      ("asr",
       JObject
         [ ("active_provider", JString "doubao");
           ("doubao",
            JObject
              [ ("app_id", JString ""); ("access_token", JString "");
                ("secret_key", JString "") ]) ]);
      ("asr_language", JString "zh") ].


(** The shape the interfaces [Config], [PostProcessConfig] and
    [LlmProvider] declare. *)
Definition provider_shape (j : Json) : bool :=
  has_exactly ["id"; "name"; "api_base"; "api_key"; "model"] [] j.

Definition postprocess_shape (j : Json) : bool :=
  has_exactly ["enabled"; "providers"; "active_provider_id"; "mode"] [] j
  && match member "providers" j with
     | Some (JArray items) => forallb provider_shape items
     | _ => false
     end.

Definition config_shape (j : Json) : bool :=
  has_exactly
    ["app_id"; "access_token"; "secret_key"; "shortcut"; "auto_type";
     "auto_copy"; "auto_start"; "silent_start"; "show_indicator";
     "realtime_input"; "postprocess"; "audio_device"; "asr"; "asr_language"]
    [] j
  && match member "postprocess" j with
     | Some pp => postprocess_shape pp
     | None => false
     end.

(* ===================================================================== *)
(** ** FrameCodec *)
(* ===================================================================== *)

Module FrameCodec.

(** Modelled from the spec: the data model's [ProtocolFrame]; the codec
    lives in the Rust backend, which the front-end sources do not
    contain. *)
Inductive MessageType :=
| ClientHandshake
| ClientAudio
| ClientFinalize
| ServerPartialResult
| ServerFinalResult
| ServerError.

Record ProtocolFrame := mkFrame
  { messageType : MessageType;
    compressed : bool;
    sequence : Z;            (* u32 *)
    payload : list byte }.

Inductive CodecError := MalformedFrame.

Definition byte_of_Z (z : Z) : byte :=
  default x00 (Byte.of_N (Z.to_N (z mod 256))).

Definition Z_of_byte (b : byte) : Z := Z.of_N (Byte.to_N b).

(** Modelled from the spec: a four-byte big-endian field, as the spec
    has it for the payload length; the same form carries the u32
    [sequence]. *)
Definition u32_be (n : Z) : list byte :=
  [ byte_of_Z (n / 2 ^ 24); byte_of_Z (n / 2 ^ 16);
    byte_of_Z (n / 2 ^ 8); byte_of_Z n ].

Definition read_u32_be (bs : list byte) : option (Z * list byte) :=
  match bs with
  | b3 :: b2 :: b1 :: b0 :: rest =>
      Some (Z_of_byte b3 * 2 ^ 24 + Z_of_byte b2 * 2 ^ 16
            + Z_of_byte b1 * 2 ^ 8 + Z_of_byte b0, rest)
  | _ => None
  end.

(** Modelled from the spec: the header's [messageType] field, one byte
    holding the position of the type in the enumeration. *)
Definition tag_of (t : MessageType) : byte :=
  match t with
  | ClientHandshake => x00
  | ClientAudio => x01
  | ClientFinalize => x02
  | ServerPartialResult => x03
  | ServerFinalResult => x04
  | ServerError => x05
  end.

Definition type_of_tag (b : byte) : option MessageType :=
  match b with
  | x00 => Some ClientHandshake
  | x01 => Some ClientAudio
  | x02 => Some ClientFinalize
  | x03 => Some ServerPartialResult
  | x04 => Some ServerFinalResult
  | x05 => Some ServerError
  | _ => None
  end.

(** Modelled from the spec: the header's compression flag, one byte,
    set when it is not zero. *)
Definition flag_of (c : bool) : byte := if c then x01 else x00.

Definition flag_set (b : byte) : bool :=
  match b with x00 => false | _ => true end.

Section WithCompressor.
(** The session's general-purpose compressor. *)
Variable compress : list byte -> list byte.
Variable decompress : list byte -> option (list byte).

(** The payload bytes as they travel. *)
Definition wire_payload (f : ProtocolFrame) : list byte :=
  if compressed f then compress (payload f) else payload f.

(** Modelled from the spec: [encode] of section 4.3: the fixed-size
    header ([messageType], compression flag, [sequence]), the 4-byte
    big-endian payload length, the payload, compressed before its
    length is taken when the flag is set. *)
Definition encode (f : ProtocolFrame) : list byte :=
  let body := wire_payload f in
  [tag_of (messageType f); flag_of (compressed f)]
  ++ u32_be (sequence f)
  ++ u32_be (Z.of_nat (length body))
  ++ body.

(** Modelled from the spec: [decode] of section 4.3: an unrecognized
    [messageType], a buffer too short for the header, or a length
    field that is not the size of the remaining buffer is a
    [MalformedFrame]; so is a payload the compressor rejects.  A
    compressed payload is decompressed before it is returned. *)
Definition decode (bs : list byte) : CodecError + ProtocolFrame :=
  match bs with
  | tag :: flag :: bs1 =>
      match type_of_tag tag, read_u32_be bs1 with
      | Some t, Some (seq, bs2) =>
          match read_u32_be bs2 with
          | Some (len, body) =>
              if decide (len = Z.of_nat (length body)) then
                if flag_set flag then
                  match decompress body with
                  | Some p => inr (mkFrame t true seq p)
                  | None => inl MalformedFrame
                  end
                else inr (mkFrame t false seq body)
              else inl MalformedFrame
          | None => inl MalformedFrame
          end
      | _, _ => inl MalformedFrame
      end
  | _ => inl MalformedFrame
  end.

(** A frame the wire format can carry: [sequence] is a u32 and the
    payload, as it travels, has a length that fits the 4-byte field. *)
Definition valid (f : ProtocolFrame) : Prop :=
  0 <= sequence f < 2 ^ 32 /\ Z.of_nat (length (wire_payload f)) < 2 ^ 32.
End WithCompressor.

(** A compressor of the deflate family in its simplest form, used to
    exercise the codec: every payload is stored as one literal block
    behind a one-byte block marker. *)
Definition store (p : list byte) : list byte := x01 :: p.

Definition unstore (bs : list byte) : option (list byte) :=
  match bs with
  | x01 :: p => Some p
  | _ => None
  end.

End FrameCodec.

(* ===================================================================== *)
(** ** Concrete inputs used by the examples below *)
(* ===================================================================== *)

(** The initial configuration after the user added the OpenAI preset. *)
Definition two_provider_config : Config.t :=
  match addProviderFromPreset "openai" 1700000000000 with
  | Some update => update initial_config
  | None => initial_config
  end.

(** An audio frame and a handshake frame. *)
Definition audio_frame : FrameCodec.ProtocolFrame :=
  FrameCodec.mkFrame FrameCodec.ClientAudio true 4294967295 [x52; x49; x46; x46; x00; xff].

Definition handshake_frame : FrameCodec.ProtocolFrame :=
  FrameCodec.mkFrame FrameCodec.ClientHandshake false 1 [x7b; x7d].

(** A backend that refuses every command with one fixed error and emits
    nothing, and one that accepts every command and announces the start of
    a recording; they exercise the theorems below. *)
Definition refusing_backend (e : string) (cmd : string) (b : unit)
  : Reply * list BackendEvent * unit :=
  (Rejected e, [], b).

Definition starting_backend (cmd : string) (b : unit)
  : Reply * list BackendEvent * unit :=
  (Resolved, [recording_started], b).

Definition world_in (s : RecordingState) : World unit :=
  mkWorld (mkAppState s "previous text" [] initial_config) tt 1700000000000.

(* ===================================================================== *)
(** ** More of [App]: toasts, the settings form, the provider list *)
(* ===================================================================== *)

#[local] Existing Instance UI_ret.
#[local] Existing Instance UI_bind.

(** [dismissToast(id)]; the timer armed by [showToast] runs the same
    update when it fires. *)
Definition dismissToast {Backend} (id : Z) : UI Backend unit :=
  setToasts (fun prev => filter (fun t => Toast.id t <> id) prev).

(** [Partial<LlmProvider>]: the properties an update object carries. *)
Module PartialLlmProvider.
Record t := mk
  { id : option string; name : option string; api_base : option string;
    api_key : option string; model : option string }.
End PartialLlmProvider.

(** [{ ...provider, ...updates }] *)
Definition spread_provider (provider : LlmProvider.t) (updates : PartialLlmProvider.t)
  : LlmProvider.t :=
  LlmProvider.mk
    (default (LlmProvider.id provider) (PartialLlmProvider.id updates))
    (default (LlmProvider.name provider) (PartialLlmProvider.name updates))
    (default (LlmProvider.api_base provider) (PartialLlmProvider.api_base updates))
    (default (LlmProvider.api_key provider) (PartialLlmProvider.api_key updates))
    (default (LlmProvider.model provider) (PartialLlmProvider.model updates)).

(** [updateProvider(index, updates)]: the updater handed to [setConfig].
    The copy of the render's list gets the merged record at [index]; the
    rest of [postprocess] comes from [prev].  There is no updater in the
    model when [index] is outside the list: JavaScript then extends the
    copy up to [index], leaving holes, and stores a record with the
    properties of [updates] alone, which is no [LlmProvider[]]. *)
Definition updateProvider
    (config : Config.t) (index : nat) (updates : PartialLlmProvider.t)
  : option (Config.t -> Config.t) :=
  let providers := PostProcessConfig.providers (Config.postprocess config) in
  match providers !! index with
  | Some provider =>
      let newProviders := <[index := spread_provider provider updates]> providers in
      Some (fun prev =>
        with_providers prev newProviders
          (PostProcessConfig.active_provider_id (Config.postprocess prev)))
  | None => None
  end.

(** The update objects the provider cards pass: [{ name: v }],
    [{ api_base: v }], [{ api_key: v }] and [{ model: v }]. *)
Inductive ProviderField := field_name | field_api_base | field_api_key | field_model.

Definition field_update (f : ProviderField) (v : string) : PartialLlmProvider.t :=
  match f with
  | field_name => PartialLlmProvider.mk None (Some v) None None None
  | field_api_base => PartialLlmProvider.mk None None (Some v) None None
  | field_api_key => PartialLlmProvider.mk None None None (Some v) None
  | field_model => PartialLlmProvider.mk None None None None (Some v)
  end.

(** [{ ...prev, postprocess: { ...prev.postprocess, enabled } }] and the
    same for [mode]: the updaters of the enable switch and of the mode
    buttons. *)
Definition set_enabled (enabled : bool) (prev : Config.t) : Config.t :=
  let pp := Config.postprocess prev in
  Config.mk
    (Config.app_id prev) (Config.access_token prev) (Config.secret_key prev)
    (Config.shortcut prev) (Config.auto_type prev) (Config.auto_copy prev)
    (Config.auto_start prev) (Config.silent_start prev)
    (Config.show_indicator prev) (Config.realtime_input prev)
    (PostProcessConfig.mk enabled (PostProcessConfig.providers pp)
       (PostProcessConfig.active_provider_id pp) (PostProcessConfig.mode pp))
    (Config.audio_device prev) (Config.asr prev) (Config.asr_language prev).

Definition set_mode (mode : PostProcessMode) (prev : Config.t) : Config.t :=
  let pp := Config.postprocess prev in
  Config.mk
    (Config.app_id prev) (Config.access_token prev) (Config.secret_key prev)
    (Config.shortcut prev) (Config.auto_type prev) (Config.auto_copy prev)
    (Config.auto_start prev) (Config.silent_start prev)
    (Config.show_indicator prev) (Config.realtime_input prev)
    (PostProcessConfig.mk (PostProcessConfig.enabled pp)
       (PostProcessConfig.providers pp)
       (PostProcessConfig.active_provider_id pp) mode)
    (Config.audio_device prev) (Config.asr prev) (Config.asr_language prev).

(** The "Custom (OpenAI Format)" entry of the add menu, with [Date.now()]
    returning [date_now]: the new provider is appended and nothing else of
    [postprocess] is set. *)
Definition custom_provider (date_now : Z) : LlmProvider.t :=
  LlmProvider.mk (String.append "custom-" (pretty.pretty date_now))
    "Custom Provider" "" "" "".

Definition add_custom_provider (date_now : Z) (prev : Config.t) : Config.t :=
  let pp := Config.postprocess prev in
  with_providers prev
    (PostProcessConfig.providers pp ++ [custom_provider date_now])
    (PostProcessConfig.active_provider_id pp).

(** The radio button of the provider card at [index] of the render's list:
    [active_provider_id: provider.id].  No card, no updater. *)
Definition select_provider (config : Config.t) (index : nat)
  : option (Config.t -> Config.t) :=
  match PostProcessConfig.providers (Config.postprocess config) !! index with
  | Some provider =>
      Some (fun prev =>
        with_providers prev
          (PostProcessConfig.providers (Config.postprocess prev))
          (LlmProvider.id provider))
  | None => None
  end.

(** [Object.values(PROVIDER_PRESETS).find(p => provider.api_base === p.api_base)] *)
Definition matchingPreset (provider : LlmProvider.t) : option ProviderPreset.t :=
  List.find
    (fun p => String.eqb (LlmProvider.api_base provider) (ProviderPreset.api_base p))
    (map snd PROVIDER_PRESETS).

(** [matchingPreset && !matchingPreset.models.includes(provider.model)], as
    the conditions that read it see it: [undefined] is falsy. *)
Definition isCustomModel (provider : LlmProvider.t) : bool :=
  match matchingPreset provider with
  | Some preset =>
      negb (existsb (String.eqb (LlmProvider.model provider))
              (ProviderPreset.models preset))
  | None => false
  end.

(** The [value] of the model [<select>], rendered for a provider with a
    matching preset. *)
Definition model_select_value (provider : LlmProvider.t) : string :=
  if isCustomModel provider then "__custom__" else LlmProvider.model provider.

(** [onChange] of the model [<select>] of the card at [index], with
    [e.target.value = value]: the updater handed to [setConfig], if any. *)
Definition onChange_model_select (config : Config.t) (index : nat) (value : string)
  : option (Config.t -> Config.t) :=
  match PostProcessConfig.providers (Config.postprocess config) !! index with
  | Some provider =>
      if String.eqb value "__custom__" then
        if negb (isCustomModel provider)
        then updateProvider config index (field_update field_model "")
        else None
      else updateProvider config index (field_update field_model value)
  | None => None
  end.

(** [toggleProviderCollapse(id)]: the updater handed to
    [setCollapsedProviders], on the set of collapsed provider ids (the
    component only asks it [has]). *)
Definition toggleProviderCollapse (id : string) (prev : gset string) : gset string :=
  if decide (id ∈ prev) then prev ∖ {[id]} else prev ∪ {[id]}.

(** One use of a control of the provider settings, in the render showing
    the configuration it acts on. *)
Inductive ProviderEdit :=
| AddPreset (presetKey : string) (date_now : Z)
| AddCustom (date_now : Z)
| Delete (index : nat)
| Select (index : nat)
| Update (index : nat) (field : ProviderField) (value : string)
| PickModel (index : nat) (value : string)
| SetEnabled (enabled : bool)
| SetMode (mode : PostProcessMode).

(** The configuration after the control's handler ran and React applied
    the updater to the configuration of that render.  A control that is not
    rendered does nothing: everything but the enable switch is rendered
    only while [postprocess.enabled], a card only for an index of the
    list, the Delete button only while [providers.length > 1], the model
    [<select>] only for a provider with a matching preset. *)
Definition apply_edit (config : Config.t) (e : ProviderEdit) : Config.t :=
  let pp := Config.postprocess config in
  let run (u : option (Config.t -> Config.t)) :=
    match u with Some update => update config | None => config end in
  match e with
  | SetEnabled enabled => set_enabled enabled config
  | _ =>
      if PostProcessConfig.enabled pp then
        match e with
        | AddPreset presetKey date_now =>
            run (addProviderFromPreset presetKey date_now)
        | AddCustom date_now => add_custom_provider date_now config
        | Delete index =>
            if decide (1 < length (PostProcessConfig.providers pp))%nat
            then match deleteProvider config index with
                 | inr update => update config
                 | inl _ => config
                 end
            else config
        | Select index => run (select_provider config index)
        | Update index field value =>
            run (updateProvider config index (field_update field value))
        | PickModel index value =>
            match PostProcessConfig.providers pp !! index with
            | Some provider =>
                match matchingPreset provider with
                | Some _ => run (onChange_model_select config index value)
                | None => config
                end
            | None => config
            end
        | SetEnabled enabled => set_enabled enabled config
        | SetMode mode => set_mode mode config
        end
      else config
  end.

Abbreviation providers_of c := (PostProcessConfig.providers (Config.postprocess c)).
Abbreviation active_of c :=
  (PostProcessConfig.active_provider_id (Config.postprocess c)).

(** The active reference names a provider of the list. *)
Definition active_valid (config : Config.t) : Prop :=
  exists provider,
    provider ∈ PostProcessConfig.providers (Config.postprocess config)
    /\ LlmProvider.id provider
       = PostProcessConfig.active_provider_id (Config.postprocess config).

(* --------------------------------------------------------------------- *)
(** *** The general settings form *)

(** The members of an object. *)
Definition members_of (j : Json) : list (string * Json) :=
  match j with
  | JObject members => members
  | _ => []
  end.

(** [{ ...members, [key]: value }]: a property that exists keeps its place
    and takes the value, a new one goes last (the property names of a
    configuration are no array indices, which JavaScript would list
    first). *)
Fixpoint set_member (key : string) (value : Json) (members : list (string * Json))
  : list (string * Json) :=
  match members with
  | [] => [(key, value)]
  | (k, v) :: rest =>
      if String.eqb k key then (k, value) :: rest
      else (k, v) :: set_member key value rest
  end.

(** [updateConfig(key, value)]: the updater [prev => ({ ...prev, [key]:
    value })] on the configuration object, which is given by its members. *)
Definition updateConfig (key : string) (value : Json) (prev : list (string * Json))
  : list (string * Json) :=
  set_member key value prev.

(** The keys [updateConfig] is called with, by the type of the input that
    calls it: text inputs and the shortcut recorder pass a string,
    checkboxes a boolean. *)
Inductive TextKey :=
| key_app_id | key_access_token | key_secret_key | key_shortcut
| key_audio_device | key_asr_language.

Inductive CheckboxKey :=
| key_auto_type | key_auto_copy | key_auto_start | key_silent_start
| key_show_indicator | key_realtime_input.

Definition TextKey_name (k : TextKey) : string :=
  match k with
  | key_app_id => "app_id"
  | key_access_token => "access_token"
  | key_secret_key => "secret_key"
  | key_shortcut => "shortcut"
  | key_audio_device => "audio_device"
  | key_asr_language => "asr_language"
  end.

Definition CheckboxKey_name (k : CheckboxKey) : string :=
  match k with
  | key_auto_type => "auto_type"
  | key_auto_copy => "auto_copy"
  | key_auto_start => "auto_start"
  | key_silent_start => "silent_start"
  | key_show_indicator => "show_indicator"
  | key_realtime_input => "realtime_input"
  end.

(** The record with one field replaced: what the form means by the update. *)
Definition with_text (k : TextKey) (v : string) (c : Config.t) : Config.t :=
  let pick k' old := match k, k' with
                     | key_app_id, key_app_id
                     | key_access_token, key_access_token
                     | key_secret_key, key_secret_key
                     | key_shortcut, key_shortcut
                     | key_audio_device, key_audio_device
                     | key_asr_language, key_asr_language => v
                     | _, _ => old
                     end in
  Config.mk
    (pick key_app_id (Config.app_id c))
    (pick key_access_token (Config.access_token c))
    (pick key_secret_key (Config.secret_key c))
    (pick key_shortcut (Config.shortcut c))
    (Config.auto_type c) (Config.auto_copy c) (Config.auto_start c)
    (Config.silent_start c) (Config.show_indicator c) (Config.realtime_input c)
    (Config.postprocess c)
    (pick key_audio_device (Config.audio_device c))
    (Config.asr c)
    (pick key_asr_language (Config.asr_language c)).

Definition with_checkbox (k : CheckboxKey) (v : bool) (c : Config.t) : Config.t :=
  let pick k' old := match k, k' with
                     | key_auto_type, key_auto_type
                     | key_auto_copy, key_auto_copy
                     | key_auto_start, key_auto_start
                     | key_silent_start, key_silent_start
                     | key_show_indicator, key_show_indicator
                     | key_realtime_input, key_realtime_input => v
                     | _, _ => old
                     end in
  Config.mk
    (Config.app_id c) (Config.access_token c) (Config.secret_key c)
    (Config.shortcut c)
    (pick key_auto_type (Config.auto_type c))
    (pick key_auto_copy (Config.auto_copy c))
    (pick key_auto_start (Config.auto_start c))
    (pick key_silent_start (Config.silent_start c))
    (pick key_show_indicator (Config.show_indicator c))
    (pick key_realtime_input (Config.realtime_input c))
    (Config.postprocess c) (Config.audio_device c) (Config.asr c)
    (Config.asr_language c).

(** The properties of a [React.KeyboardEvent] the shortcut recorder
    reads.  A key name stands for its sequence of code units, so that
    [String.length] is [key.length]. *)
Record KeyboardEvent := mkKeyboardEvent
  { ctrlKey : bool; altKey : bool; shiftKey : bool; metaKey : bool;
    key : string }.

Section ShortcutRecorder.
(** [isMacOS] is read from [navigator.platform]; [toUpperCase] is
    [String.prototype.toUpperCase]. *)
Variable isMacOS : bool.
Variable toUpperCase : string -> string.

(** The modifier names pushed to [parts], in program order. *)
Definition modifier_parts (e : KeyboardEvent) : list string :=
  (if ctrlKey e then ["Ctrl"] else [])
  ++ (if altKey e then [if isMacOS then "Option" else "Alt"] else [])
  ++ (if shiftKey e then ["Shift"] else [])
  ++ (if metaKey e then [if isMacOS then "Cmd" else "Super"] else []).

(** [keyName] for a key that is no modifier. *)
Definition keyName (key : string) : string :=
  if String.eqb key " " then "Space"
  else if Nat.eqb (String.length key) 1 then toUpperCase key
  else if String.eqb key "ArrowUp" then "Up"
  else if String.eqb key "ArrowDown" then "Down"
  else if String.eqb key "ArrowLeft" then "Left"
  else if String.eqb key "ArrowRight" then "Right"
  else key.

(** [handleShortcutKeyDown(e)] on the configuration object and the
    [isRecordingShortcut] flag. *)
Definition handleShortcutKeyDown
    (e : KeyboardEvent) (st : list (string * Json) * bool)
  : list (string * Json) * bool :=
  let parts := modifier_parts e in
  if mem_string (key e) ["Control"; "Alt"; "Shift"; "Meta"] then st
  else
    let parts := parts ++ [keyName (key e)] in
    if decide (0 < length parts)%nat then
      let shortcut := String.concat "+" parts in
      (updateConfig "shortcut" (JString shortcut) (fst st), false)
    else st.
End ShortcutRecorder.

(* ===================================================================== *)
(** ** The record button of src/App.vue *)
(* ===================================================================== *)

Module VueLoop.

(** What reaches the component, one task of the event loop each: the
    mouse on the record button, a backend event, and the settling of the
    promise of a pending [start_recording] or [stop_recording] call. *)
Inductive Input :=
| mousedown
| mouseup
| mouseleave
| event (ev : BackendEvent)
| start_settled (reply : Reply)
| stop_settled (reply : Reply).

Inductive Output :=
| OInvoke (cmd : string)
| OConsoleError (label : string) (e : string)
| OAlert (message : string).

Definition set_isProcessing (b : bool) (a : Vue.AppState) : Vue.AppState :=
  Vue.mkAppState (Vue.isRecording a) b (Vue.transcript a) (Vue.showSettings a).

(** The listeners of [onMounted]; the component has none for [error]. *)
Definition listen (ev : BackendEvent) (a : Vue.AppState) : Vue.AppState :=
  match ev with
  | recording_started => Vue.on_recording_started a
  | recording_stopped payload => Vue.on_recording_stopped payload a
  | transcript_update payload => Vue.on_transcript_update payload a
  | error_event _ => a
  end.

(** [startRecording] up to its [await]. *)
Definition startRecording (a : Vue.AppState) : Vue.AppState * list Output :=
  if Vue.isRecording a then (a, [])
  else (a, [OInvoke "start_recording"]).

(** [stopRecording] up to its [await]. *)
Definition stopRecording (a : Vue.AppState) : Vue.AppState * list Output :=
  if negb (Vue.isRecording a) then (a, [])
  else (set_isProcessing true a, [OInvoke "stop_recording"]).

(** The rest of [startRecording] and of [stopRecording], once the promise
    settled. *)
Definition startRecording_resume (reply : Reply) (a : Vue.AppState)
  : Vue.AppState * list Output :=
  match reply with
  | Resolved => (a, [])
  | Rejected e =>
      (a, [OConsoleError "Failed to start recording:" e;
           OAlert (String.append "录音失败: " e)])
  end.

Definition stopRecording_resume (reply : Reply) (a : Vue.AppState)
  : Vue.AppState * list Output :=
  match reply with
  | Resolved => (a, [])
  | Rejected e =>
      (set_isProcessing false a, [OConsoleError "Failed to stop recording:" e])
  end.

Definition step (a : Vue.AppState) (i : Input) : Vue.AppState * list Output :=
  match i with
  | mousedown => startRecording a
  | mouseup => stopRecording a
  | mouseleave => if Vue.isRecording a then stopRecording a else (a, [])
  | event ev => (listen ev a, [])
  | start_settled reply => startRecording_resume reply a
  | stop_settled reply => stopRecording_resume reply a
  end.

Definition run (a : Vue.AppState) (inputs : list Input) : Vue.AppState :=
  foldl (fun a i => fst (step a i)) a inputs.

(** The text of the status line. *)
Definition status_text (a : Vue.AppState) : string :=
  if Vue.isRecording a then "录音中..."
  else if Vue.isProcessing a then "处理中..."
  else "按住 Alt+Space 开始录音".

End VueLoop.

(* ===================================================================== *)
(** ** The indicator window of src/indicator.tsx *)
(* ===================================================================== *)

Module Indicator.

(** [type IndicatorState = "recording" | "processing" | "not-configured"] *)
Inductive IndicatorState := recording | processing | not_configured.

(** The events emitted to the windows: those of the main window and
    [indicator-not-configured]. *)
Inductive WindowEvent :=
| of_backend (ev : BackendEvent)
| indicator_not_configured.

(** [useState<IndicatorState>("recording")] *)
Definition initial : IndicatorState := recording.

(** The three listeners of [setupListeners]; any other event has none. *)
Definition listen (ev : WindowEvent) (s : IndicatorState) : IndicatorState :=
  match ev with
  | of_backend recording_started => recording
  | of_backend (recording_stopped _) => processing
  | indicator_not_configured => not_configured
  | of_backend (transcript_update _) | of_backend (error_event _) => s
  end.

Definition run (s : IndicatorState) (evs : list WindowEvent) : IndicatorState :=
  foldl (fun s ev => listen ev s) s evs.

Definition isRecording (s : IndicatorState) : bool :=
  match s with recording => true | _ => false end.

Definition isNotConfigured (s : IndicatorState) : bool :=
  match s with not_configured => true | _ => false end.

(** The text the pill shows. *)
Definition label (s : IndicatorState) : string :=
  if isNotConfigured s then "Not Configured"
  else if isRecording s then "Listening"
  else "Processing".

End Indicator.

(** Whether the event is one both windows take a recording state from. *)
Definition announces (ev : BackendEvent) : bool :=
  match ev with
  | recording_started | recording_stopped _ => true
  | _ => false
  end.

(** The two windows show the same phase of a recording. *)
Definition windows_agree {Backend} (w : World Backend) (s : Indicator.IndicatorState)
  : Prop :=
  (state (ui w) = recording /\ Indicator.label s = "Listening")
  \/ (state (ui w) = idle /\ Indicator.label s = "Processing").

(** The main window has a listener for each backend event and none for
    [indicator-not-configured]. *)
Definition App_listen {Backend} (ev : Indicator.WindowEvent) : UI Backend unit :=
  match ev with
  | Indicator.of_backend ev => dispatch ev
  | Indicator.indicator_not_configured => done_
  end.

Fixpoint App_run {Backend} (evs : list Indicator.WindowEvent) : UI Backend unit :=
  match evs with
  | [] => done_
  | ev :: evs' => App_listen ev;; App_run evs'
  end.

(** The events the indicator has a listener for, and those among them
    that announce the start or the end of a recording. *)
Definition heard_by_indicator (ev : Indicator.WindowEvent) : bool :=
  match ev with
  | Indicator.of_backend ev => announces ev
  | Indicator.indicator_not_configured => true
  end.

Definition announcement (ev : Indicator.WindowEvent) : bool :=
  match ev with
  | Indicator.of_backend ev => announces ev
  | Indicator.indicator_not_configured => false
  end.

(** Whether the last event the indicator heard was an announcement. *)
Definition last_heard_announces (evs : list Indicator.WindowEvent) : bool :=
  match last (List.filter heard_by_indicator evs) with
  | Some ev => announcement ev
  | None => false
  end.

(* ===================================================================== *)
(** ** More concrete inputs *)
(* ===================================================================== *)

(** A backend that accepts every command and emits nothing, and one that
    plays a whole recording: the start is announced, the stop delivers a
    last partial result and the final text. *)
Definition silent_backend (cmd : string) (b : unit)
  : Reply * list BackendEvent * unit :=
  (Resolved, [], b).

Definition dictating_backend (cmd : string) (b : unit)
  : Reply * list BackendEvent * unit :=
  if String.eqb cmd "start_recording" then (Resolved, [] ++ [recording_started], b)
  else (Resolved, [transcript_update "hello"] ++ [recording_stopped "hello there."], b).

Definition world_with_toast : World unit :=
  mkWorld
    (mkAppState idle "" [Toast.mk 1699999999000 "Connection successful!" success]
       initial_config)
    tt 1700000000000.

Definition custom_model_config : Config.t :=
  apply_edit (set_enabled true initial_config) (PickModel 0 "__custom__").

(** The backend commands a trace holds, in the order they were issued. *)
Definition commands_of (log : list Action) : list string :=
  omap (fun a => match a with AInvoke cmd => Some cmd | _ => None end) log.

(* ===================================================================== *)
(** * Properties *)
(* ===================================================================== *)

(** ** The recording controls and the listeners of [App] *)

Section Controls.
Context {Backend : Type}.
Variable invoke_backend :
  string -> Backend -> Reply * list BackendEvent * Backend.

Implicit Types w : World Backend.

(** No listener calls the backend. *)
Lemma dispatch_no_invoke ev w cmd :
  ~ In (AInvoke cmd) (log_of (dispatch ev) w).
Proof. destruct ev; vm_compute; intuition congruence. Qed.

Lemma deliver_no_invoke evs w cmd :
  ~ In (AInvoke cmd) (log_of (deliver evs) w).
Proof.
  revert w. induction evs as [|ev evs IH]; intros w; [cbn; tauto|].
  unfold log_of in *. cbn [deliver].
  unfold mbind, UI_bind.
  pose proof (dispatch_no_invoke ev w cmd) as Hd. unfold log_of in Hd.
  destruct (dispatch ev w) as [[[] w1] l1] eqn:E1.
  specialize (IH w1).
  destruct (deliver evs w1) as [[[] w2] l2] eqn:E2.
  cbn in *. rewrite in_app_iff. tauto.
Qed.

(** The backend state is out of the listeners' reach, and so is the
    clock. *)
Lemma deliver_backend evs w :
  backend (exec (deliver evs) w) = backend w
  /\ now (exec (deliver evs) w) = now w.
Proof.
  revert w. induction evs as [|ev evs IH]; intros w; [cbn; tauto|].
  unfold exec in *. cbn [deliver]. unfold mbind, UI_bind.
  destruct (dispatch ev w) as [[[] w1] l1] eqn:E1.
  assert (backend w1 = backend w /\ now w1 = now w) as [Hb Hn].
  { destruct ev; cbn in E1; inversion E1; subst; cbn; tauto. }
  specialize (IH w1).
  destruct (deliver evs w1) as [[[] w2] l2] eqn:E2.
  cbn in *. rewrite <- Hb, <- Hn. exact IH.
Qed.

(** What [startRecording] does from the idle state, by how the backend
    answers. *)
Lemma startRecording_idle w reply evs b' :
  state (ui w) = idle ->
  invoke_backend "start_recording" (backend w) = (reply, evs, b') ->
  let w1 := exec (deliver evs) (mkWorld (ui w) b' (now w)) in
  let l1 := log_of (deliver evs) (mkWorld (ui w) b' (now w)) in
  startRecording invoke_backend w =
    match reply with
    | Resolved => (tt, w1, AInvoke "start_recording" :: l1)
    | Rejected e =>
        (tt,
         mkWorld (mkAppState idle (transcript (ui w1))
                    (toasts (ui w1) ++ [Toast.mk (now w1) e error])
                    (config (ui w1)))
           (backend w1) (now w1),
         AInvoke "start_recording" :: l1
           ++ [AConsoleError "Failed to start recording:" e;
               AShowToast e error; ASetTimeout 4000 (now w1); ASetState idle])
    end.
Proof.
  intros Hs Hb. unfold startRecording.
  destruct (decide (state (ui w) <> idle)) as [Hne|_]; [congruence|].
  unfold mbind, UI_bind, invoke, exec, log_of. rewrite Hb.
  destruct (deliver evs _) as [[[] w1] l1].
  destruct reply; cbn; [now rewrite app_nil_r|].
  reflexivity.
Qed.

Lemma setState_run s w :
  setState s w =
    (tt,
     mkWorld (mkAppState s (transcript (ui w)) (toasts (ui w)) (config (ui w)))
       (backend w) (now w),
     [ASetState s]).
Proof. reflexivity. Qed.

Lemma stopRecording_recording w reply evs b' :
  state (ui w) = recording ->
  invoke_backend "stop_recording" (backend w) = (reply, evs, b') ->
  let w0 :=
    mkWorld (mkAppState processing (transcript (ui w)) (toasts (ui w))
               (config (ui w))) b' (now w) in
  let w1 := exec (deliver evs) w0 in
  let l1 := log_of (deliver evs) w0 in
  stopRecording invoke_backend w =
    match reply with
    | Resolved =>
        (tt, w1, ASetState processing :: AInvoke "stop_recording" :: l1)
    | Rejected e =>
        (tt,
         mkWorld (mkAppState idle (transcript (ui w1))
                    (toasts (ui w1) ++ [Toast.mk (now w1) e error])
                    (config (ui w1)))
           (backend w1) (now w1),
         ASetState processing :: AInvoke "stop_recording" :: l1
           ++ [AConsoleError "Failed to stop recording:" e;
               AShowToast e error; ASetTimeout 4000 (now w1); ASetState idle])
    end.
Proof.
  intros Hs Hb. unfold stopRecording.
  destruct (decide (state (ui w) <> recording)) as [Hne|_]; [congruence|].
  unfold mbind, UI_bind, invoke, exec, log_of.
  rewrite setState_run. cbn [backend ui now]. rewrite Hb.
  destruct (deliver evs _) as [[[] w1] l1].
  destruct reply; cbn; [now rewrite app_nil_r|].
  reflexivity.
Qed.

Lemma deliver_app evs1 evs2 w :
  exec (deliver (evs1 ++ evs2)) w = exec (deliver evs2) (exec (deliver evs1) w).
Proof.
  revert w. induction evs1 as [|ev evs1 IH]; intros w; [reflexivity|].
  unfold exec in *. cbn [deliver app]. unfold mbind, UI_bind.
  destruct (dispatch ev w) as [[[] w1] l1].
  specialize (IH w1).
  destruct (deliver (evs1 ++ evs2) w1) as [[[] w2] l2].
  destruct (deliver evs1 w1) as [[[] w3] l3].
  cbn in *. rewrite IH.
  destruct (deliver evs2 w3) as [[[] w4] l4]. reflexivity.
Qed.

(** C1. [startRecording] outside the idle state returns at once: the
    world is as it was and nothing was done, so no [start_recording]
    reached the backend and the state did not change.  The command is
    issued exactly when the state is idle, it is the only command the
    handler ever issues, and when the backend accepts it and announces
    the recording, the state is [recording]. *)
Theorem startRecording_only_from_idle w :
  (state (ui w) <> idle -> startRecording invoke_backend w = (tt, w, []))
  /\ (In (AInvoke "start_recording") (log_of (startRecording invoke_backend) w)
      <-> state (ui w) = idle)
  /\ (forall cmd,
        In (AInvoke cmd) (log_of (startRecording invoke_backend) w) ->
        cmd = "start_recording")
  /\ (forall evs b',
        state (ui w) = idle ->
        invoke_backend "start_recording" (backend w)
          = (Resolved, evs ++ [recording_started], b') ->
        state (ui (exec (startRecording invoke_backend) w)) = recording).
Proof.
  assert (Hnoop : state (ui w) <> idle ->
                  startRecording invoke_backend w = (tt, w, [])).
  { intros Hne. unfold startRecording.
    destruct (decide (state (ui w) <> idle)); [reflexivity|contradiction]. }
  destruct (decide (state (ui w) = idle)) as [Hi|Hne].
  - destruct (invoke_backend "start_recording" (backend w))
      as [[reply evs] b'] eqn:Hb.
    pose proof (startRecording_idle w reply evs b' Hi Hb) as Hrun.
    cbn zeta in Hrun.
    pose proof (deliver_no_invoke evs (mkWorld (ui w) b' (now w))) as Hev.
    repeat split; try tauto.
    + intros _. unfold log_of. rewrite Hrun. destruct reply; left; reflexivity.
    + intros cmd. unfold log_of. rewrite Hrun.
      destruct reply; cbn; rewrite ?in_app_iff; cbn;
        intros [H|H]; try (inversion H; reflexivity);
        try (exfalso; eapply Hev; eassumption);
        intuition (try discriminate; exfalso; eapply Hev; eassumption).
    + intros evs0 b0 _ Heq. inversion Heq; subst.
      unfold exec at 1. rewrite Hrun. cbn [fst snd].
      rewrite deliver_app. reflexivity.
  - repeat split; try tauto.
    + unfold log_of. rewrite (Hnoop Hne). cbn. tauto.
    + unfold log_of. rewrite (Hnoop Hne). cbn. tauto.
Qed.

(** Events that announce neither the start nor the end of a recording
    leave the recording state alone. *)
Lemma deliver_keeps_state evs w :
  Forall (fun ev => announces ev = false) evs ->
  state (ui (exec (deliver evs) w)) = state (ui w).
Proof.
  intros Hevs. revert w. induction Hevs as [|ev evs Hev _ IH]; intros w; [reflexivity|].
  unfold exec in *. cbn [deliver]. unfold mbind, UI_bind.
  destruct (dispatch ev w) as [[[] w1] l1] eqn:E1.
  assert (Hs : state (ui w1) = state (ui w)).
  { destruct ev; try discriminate; cbn in E1; inversion E1; reflexivity. }
  specialize (IH w1).
  destruct (deliver evs w1) as [[[] w2] l2]. cbn in *. now rewrite IH.
Qed.

(** C2. [stopRecording] outside the recording state returns at once: the
    world is as it was and nothing was done.  In the recording state it
    first writes [processing] to the state and then issues
    [stop_recording], the only command it issues: the events that arrive
    while the command is pending meet a component whose state is
    [processing] and which is otherwise as before the call.  When the
    command is accepted the call ends in the world those events leave,
    so in the [processing] state unless one of them announced a start or
    an end; when it is rejected with [e], the call ends idle with the
    error toast added. *)
Theorem stopRecording_only_when_recording w :
  (state (ui w) <> recording -> stopRecording invoke_backend w = (tt, w, []))
  /\ (state (ui w) = recording ->
      forall reply evs b',
        invoke_backend "stop_recording" (backend w) = (reply, evs, b') ->
        let issued :=
          mkWorld
            (mkAppState processing (transcript (ui w)) (toasts (ui w)) (config (ui w)))
            b' (now w) in
        let settled := exec (deliver evs) issued in
        exists rest,
          log_of (stopRecording invoke_backend) w
            = ASetState processing :: AInvoke "stop_recording" :: rest
          /\ (forall cmd, ~ In (AInvoke cmd) rest)
          /\ exec (stopRecording invoke_backend) w
             = match reply with
               | Resolved => settled
               | Rejected e =>
                   mkWorld
                     (mkAppState idle (transcript (ui settled))
                        (toasts (ui settled) ++ [Toast.mk (now settled) e error])
                        (config (ui settled)))
                     (backend settled) (now settled)
               end
          /\ (reply = Resolved ->
              Forall (fun ev => announces ev = false) evs ->
              state (ui (exec (stopRecording invoke_backend) w)) = processing)).
Proof.
  split.
  - intros Hne. unfold stopRecording.
    destruct (decide (state (ui w) <> recording)); [reflexivity|contradiction].
  - intros Hr reply evs b' Hb.
    pose proof (stopRecording_recording w reply evs b' Hr Hb) as Hrun.
    cbn zeta in *.
    set (issued := mkWorld _ b' (now w)) in *.
    pose proof (deliver_no_invoke evs issued) as Hev.
    pose proof (deliver_keeps_state evs issued) as Hst.
    assert (Hlog : log_of (stopRecording invoke_backend) w
                   = snd (stopRecording invoke_backend w)) by reflexivity.
    assert (Hex : exec (stopRecording invoke_backend) w
                  = snd (fst (stopRecording invoke_backend w))) by reflexivity.
    rewrite Hlog, Hex, Hrun. clear Hlog Hex Hrun.
    destruct reply; cbn [fst snd]; eexists; (split; [reflexivity|]).
    + split; [exact Hev|]. split; [reflexivity|].
      intros _ Hevs. now rewrite (Hst Hevs).
    + split.
      * intros cmd. rewrite in_app_iff. cbn.
        specialize (Hev cmd). intuition discriminate.
      * split; [reflexivity|discriminate].
Qed.

(** C5. When the backend rejects [start_recording] with an error [e],
    whatever events it emitted meanwhile, the call ends in the idle
    state, the newest toast is the error toast carrying [e], and the
    toast was shown before the state was put back to idle. *)
Theorem startRecording_failure_is_idle w e evs b' :
  state (ui w) = idle ->
  invoke_backend "start_recording" (backend w) = (Rejected e, evs, b') ->
  let w' := exec (startRecording invoke_backend) w in
  state (ui w') = idle
  /\ last (toasts (ui w')) = Some (Toast.mk (now w) e error)
  /\ exists before,
       log_of (startRecording invoke_backend) w
         = before ++ [AShowToast e error; ASetTimeout 4000 (now w); ASetState idle].
Proof.
  intros Hi Hb. pose proof (startRecording_idle w _ _ _ Hi Hb) as Hrun.
  cbn zeta in Hrun.
  destruct (deliver_backend evs (mkWorld (ui w) b' (now w))) as [_ Hnow].
  cbn [now] in Hnow. rewrite Hnow in Hrun.
  cbn zeta. unfold exec, log_of. rewrite Hrun. cbn [fst snd ui state toasts].
  split; [reflexivity|]. split; [apply last_snoc|].
  eexists (AInvoke "start_recording" :: _ ++ [AConsoleError _ e]).
  cbn. rewrite <- app_assoc. reflexivity.
Qed.

(** C3. On [transcript-update] the transcript is the event's text,
    whatever it was before, in the React component and in the Vue
    component alike; the recording state is not touched. *)
Theorem transcript_update_replaces text w (a : Vue.AppState) :
  let w' := exec (dispatch (transcript_update text)) w in
  transcript (ui w') = text
  /\ state (ui w') = state (ui w)
  /\ Vue.transcript (Vue.on_transcript_update text a) = text.
Proof. repeat split. Qed.

(** The [error] listener shows the toast and nothing else: the
    recording state after the event is the state before it. *)
Lemma on_error_keeps_state message w :
  let w' := exec (dispatch (error_event message)) w in
  state (ui w') = state (ui w)
  /\ toasts (ui w') = toasts (ui w) ++ [Toast.mk (now w) message error]
  /\ log_of (dispatch (error_event message)) w
     = [AShowToast message error; ASetTimeout 4000 (now w)].
Proof. repeat split. Qed.

(** C6. On [recording-stopped] the state is idle and the transcript is
    the event's text, from any state and any transcript. *)
Theorem recording_stopped_sets_idle_and_text text w :
  let w' := exec (dispatch (recording_stopped text)) w in
  state (ui w') = idle /\ transcript (ui w') = text.
Proof. repeat split. Qed.

(** C9. On [recording-started] the state is recording and the transcript
    is empty, whatever was displayed before, in the React component and
    in the Vue component alike. *)
Theorem recording_started_resets_transcript w (a : Vue.AppState) :
  let w' := exec (dispatch recording_started) w in
  state (ui w') = recording
  /\ transcript (ui w') = ""
  /\ Vue.isRecording (Vue.on_recording_started a) = true
  /\ Vue.isProcessing (Vue.on_recording_started a) = false
  /\ Vue.transcript (Vue.on_recording_started a) = "".
Proof. repeat split. Qed.

End Controls.

(** The guards at work on concrete worlds. *)
Lemma startRecording_only_from_idle_witness :
  startRecording starting_backend (world_in processing)
    = (tt, world_in processing, [])
  /\ state (ui (exec (startRecording starting_backend) (world_in idle)))
     = recording.
Proof.
  split.
  - apply (startRecording_only_from_idle starting_backend (world_in processing)).
    discriminate.
  - apply (startRecording_only_from_idle starting_backend (world_in idle))
      with (evs := []) (b' := tt); reflexivity.
Defined.

Lemma stopRecording_only_when_recording_witness :
  stopRecording starting_backend (world_in idle) = (tt, world_in idle, [])
  /\ exec (stopRecording silent_backend) (world_in recording) = world_in processing.
Proof.
  split.
  - apply (stopRecording_only_when_recording starting_backend (world_in idle)).
    discriminate.
  - destruct (proj2 (stopRecording_only_when_recording silent_backend
                       (world_in recording))
                eq_refl Resolved [] tt eq_refl)
      as (rest & _ & _ & Hworld & _).
    exact Hworld.
Defined.

Lemma startRecording_failure_is_idle_witness :
  let w' :=
    exec (startRecording (refusing_backend "CredentialsMissing")) (world_in idle) in
  state (ui w') = idle
  /\ last (toasts (ui w'))
     = Some (Toast.mk 1700000000000 "CredentialsMissing" error)
  /\ exists before,
       log_of (startRecording (refusing_backend "CredentialsMissing")) (world_in idle)
         = before ++ [AShowToast "CredentialsMissing" error;
                      ASetTimeout 4000 1700000000000; ASetState idle].
Proof.
  apply (startRecording_failure_is_idle (refusing_backend "CredentialsMissing")
           (world_in idle) "CredentialsMissing" [] tt); reflexivity.
Defined.

(** C4. The specification has every [error] event return the component
    to the idle state.  The listener does not do that: an error arriving
    while recording leaves the state [recording], and one arriving while
    processing leaves it [processing]. *)
Theorem error_event_leaves_state :
  state (ui (exec (dispatch (error_event "TransportClosed")) (world_in recording)))
    = recording
  /\ state (ui (exec (dispatch (error_event "TransportClosed")) (world_in processing)))
     = processing.
Proof. split; reflexivity. Qed.

(** Scenario A of the specification as the window sees it: three partial
    results and the final text, after the recording was announced. *)
Example scenario_A :
  let events :=
    [ recording_started; transcript_update "he"; transcript_update "hello";
      transcript_update "hello there"; recording_stopped "hello there." ] in
  state (ui (exec (deliver events) (world_in idle))) = idle
  /\ transcript (ui (exec (deliver events) (world_in idle))) = "hello there."
  /\ log_of (deliver events) (world_in idle)
     = [ ASetState recording; ASetTranscript "";
         ASetTranscript "he"; ASetTranscript "hello";
         ASetTranscript "hello there";
         ASetState idle; ASetTranscript "hello there." ].
Proof. repeat split. Qed.

(** Press and release of the record button against a backend that accepts
    every command. *)
Example press_then_release :
  let pressed := exec (startRecording starting_backend) (world_in idle) in
  state (ui pressed) = recording
  /\ log_of (stopRecording starting_backend) pressed
     = [ ASetState processing; AInvoke "stop_recording";
         ASetState recording; ASetTranscript "" ].
Proof. repeat split. Qed.

(** ** Provider management *)

(** Filtering out one index is deleting at that index. *)
Lemma filter_from_skip {A} (l : list A) (k t : nat) :
  filter_from (fun _ i => negb (Nat.eqb i t)) k l
  = if decide (k <= t)%nat then delete (t - k)%nat l else l.
Proof.
  revert k. induction l as [|x l IH]; intros k.
  - cbn. now case_decide.
  - cbn [filter_from]. rewrite IH.
    destruct (Nat.eqb_spec k t) as [->|Hne]; cbn [negb].
    + rewrite Nat.sub_diag.
      destruct (decide (S t <= t)%nat); [lia|].
      destruct (decide (t <= t)%nat); [reflexivity|lia].
    + destruct (decide (k <= t)%nat) as [Hle|Hgt].
      * destruct (decide (S k <= t)%nat); [|lia].
        replace (t - k)%nat with (S (t - S k)) by lia. reflexivity.
      * destruct (decide (S k <= t)%nat); [lia|reflexivity].
Qed.

Lemma Array_filter_delete {A} (l : list A) (index : nat) :
  Array_filter (fun _ i => negb (Nat.eqb i index)) l = delete index l.
Proof.
  unfold Array_filter. rewrite filter_from_skip.
  destruct (decide (0 <= index)%nat); [|lia]. now rewrite Nat.sub_0_r.
Qed.

(** [newProviders[0]?.id || ""] is the first remaining id, or the empty
    string when none remains. *)
Lemma or_empty_first (l : list LlmProvider.t) :
  or_empty (LlmProvider.id <$> l !! 0%nat)
  = match l with [] => "" | first :: _ => LlmProvider.id first end.
Proof.
  destruct l as [|p l]; [reflexivity|]. cbn.
  destruct (decide (LlmProvider.id p = "")) as [->|]; reflexivity.
Qed.

(** A provider that stays in the list after the deletion of another
    index. *)
Lemma elem_of_delete_other {A} (l : list A) (i j : nat) (x : A) :
  l !! j = Some x -> i <> j -> x ∈ delete i l.
Proof.
  intros Hj Hne. apply list_elem_of_lookup.
  destruct (decide (j < i)%nat).
  - exists j. now rewrite list_lookup_delete_lt by lia.
  - exists (j - 1)%nat. rewrite list_lookup_delete_ge by lia.
    replace (S (j - 1)) with j by lia. exact Hj.
Qed.

(** C10. Deleting the provider at an index of the list hands [setConfig]
    an update whose provider list is the old one without that index;
    whose active id is the old one when the deleted provider was not
    active, and otherwise the id of the first remaining provider, or the
    empty string when none remains; which leaves [enabled], [mode] and
    every field outside [postprocess] as they were; and under which an
    active id that named a provider of the list still names one, unless
    the list became empty. *)
Theorem deleteProvider_keeps_active_valid
    (config prev : Config.t) (index : nat) (provider : LlmProvider.t) :
  PostProcessConfig.providers (Config.postprocess config) !! index = Some provider ->
  exists update,
    deleteProvider config index = inr update
    /\ let pp := Config.postprocess config in
       let active := PostProcessConfig.active_provider_id pp in
       let rest := delete index (PostProcessConfig.providers pp) in
       let pp' := Config.postprocess (update prev) in
       let active' := PostProcessConfig.active_provider_id pp' in
       PostProcessConfig.providers pp' = rest
       /\ (active <> LlmProvider.id provider -> active' = active)
       /\ (active = LlmProvider.id provider ->
           active' = match rest with
                     | [] => ""
                     | first :: _ => LlmProvider.id first
                     end)
       /\ PostProcessConfig.enabled pp'
          = PostProcessConfig.enabled (Config.postprocess prev)
       /\ PostProcessConfig.mode pp'
          = PostProcessConfig.mode (Config.postprocess prev)
       /\ (forall ps a, with_providers (update prev) ps a = with_providers prev ps a)
       /\ ((exists q, q ∈ PostProcessConfig.providers pp /\ LlmProvider.id q = active) ->
           (rest = [] /\ active' = "")
           \/ exists q, q ∈ rest /\ LlmProvider.id q = active').
Proof.
  intros Hp. unfold deleteProvider. rewrite Hp, Array_filter_delete, or_empty_first.
  eexists. split; [reflexivity|]. cbn zeta. cbn [Config.postprocess with_providers
    PostProcessConfig.providers PostProcessConfig.active_provider_id
    PostProcessConfig.enabled PostProcessConfig.mode].
  set (pp := Config.postprocess config) in *.
  set (rest := delete index (PostProcessConfig.providers pp)).
  destruct (decide (PostProcessConfig.active_provider_id pp = LlmProvider.id provider))
    as [Heq|Hne].
  - repeat split; try reflexivity; try tauto.
    intros _. destruct rest as [|first rest'] eqn:Hrest; [left; tauto|].
    right. exists first. split; [left|reflexivity].
  - repeat split; try reflexivity; try tauto.
    intros (q & Hq & Hid). right. exists q. split; [|exact Hid].
    apply list_elem_of_lookup in Hq as [j Hj].
    apply (elem_of_delete_other _ index j q Hj).
    intros ->. rewrite Hp in Hj. congruence.
Qed.

(** Deleting the only provider of the initial configuration, which is the
    active one. *)
Lemma deleteProvider_keeps_active_valid_witness :
  exists update,
    deleteProvider initial_config 0 = inr update
    /\ PostProcessConfig.providers (Config.postprocess (update initial_config)) = []
    /\ PostProcessConfig.active_provider_id (Config.postprocess (update initial_config)) = "".
Proof.
  destruct (deleteProvider_keeps_active_valid initial_config initial_config 0%nat
              (LlmProvider.mk "default" "DeepSeek" "https://api.deepseek.com/v1" ""
                 "deepseek-chat") eq_refl)
    as (update & Hrun & Hps & _ & Hact & _).
  exists update. split; [exact Hrun|]. split; [exact Hps|].
  apply Hact. reflexivity.
Defined.

(** Deleting the active provider of a two-provider configuration makes
    the remaining one active; deleting the other one changes nothing
    else. *)
Example deleteProvider_examples :
  (match deleteProvider two_provider_config 0 with
   | inr update =>
       let pp := Config.postprocess (update two_provider_config) in
       (map LlmProvider.id (PostProcessConfig.providers pp),
        PostProcessConfig.active_provider_id pp)
   | inl _ => ([], "")
   end) = (["openai-1700000000000"], "openai-1700000000000")
  /\ (match deleteProvider two_provider_config 1 with
      | inr update => Some (update two_provider_config)
      | inl _ => None
      end) = Some initial_config.
Proof. split; reflexivity. Qed.

(** Outside the list [provider] is [undefined] and [provider.id] throws:
    nothing is handed to [setConfig]. *)
Lemma deleteProvider_out_of_range (config : Config.t) (index : nat) :
  (length (PostProcessConfig.providers (Config.postprocess config)) <= index)%nat ->
  deleteProvider config index = inl TypeError.
Proof.
  intros Hge. unfold deleteProvider.
  now rewrite (lookup_ge_None_2 _ _ Hge).
Qed.

(** ** The configuration object *)


(** The records and the object literals of the sources are the same
    objects. *)
Lemma config_literals :
  VueConfig_to_json Vue_initial_config = Vue_config_literal
  /\ AppConfig_to_json App_initial_config = App_config_literal
  /\ Config_to_json initial_config = types_config_literal.
Proof. repeat split. Qed.





(** ** FrameCodec *)

Module FrameCodecFacts.
Import FrameCodec.

Lemma Z_of_byte_of_Z (z : Z) : Z_of_byte (byte_of_Z z) = z mod 256.
Proof.
  unfold Z_of_byte, byte_of_Z.
  assert (Hr : 0 <= z mod 256 < 256) by (apply Z.mod_pos_bound; lia).
  destruct (Byte.of_N (Z.to_N (z mod 256))) as [b|] eqn:E.
  - cbn. apply Byte.to_of_N in E. rewrite E. lia.
  - apply Byte.of_N_None_iff in E. lia.
Qed.

Lemma read_u32_be_u32_be (n : Z) (rest : list byte) :
  0 <= n < 2 ^ 32 -> read_u32_be (u32_be n ++ rest) = Some (n, rest).
Proof.
  intros Hn. unfold u32_be. cbn [app read_u32_be].
  rewrite !Z_of_byte_of_Z. f_equal. f_equal.
  change (2 ^ 24) with 16777216. change (2 ^ 16) with 65536.
  change (2 ^ 8) with 256. change (2 ^ 32) with 4294967296 in Hn.
  Z.to_euclidean_division_equations. lia.
Qed.

Lemma type_of_tag_of (t : MessageType) : type_of_tag (tag_of t) = Some t.
Proof. now destruct t. Qed.

Lemma flag_set_of (c : bool) : flag_set (flag_of c) = c.
Proof. now destruct c. Qed.

Section RoundTrip.
Variable compress : list byte -> list byte.
Variable decompress : list byte -> option (list byte).
Hypothesis decompress_compress : forall p, decompress (compress p) = Some p.

(** C8. With a compressor whose decompressor undoes it, every valid
    frame, compressed or not, is what [decode] returns for its
    encoding. *)
Theorem decode_encode (f : ProtocolFrame) :
  valid compress f -> decode decompress (encode compress f) = inr f.
Proof.
  intros [Hseq Hlen]. unfold encode, decode. cbn [app].
  rewrite type_of_tag_of, (read_u32_be_u32_be _ _ Hseq).
  rewrite read_u32_be_u32_be by lia.
  destruct (decide _) as [_|Hne]; [|congruence].
  rewrite flag_set_of. destruct f as [t [|] seq p]; cbn in *.
  - now rewrite decompress_compress.
  - reflexivity.
Qed.
End RoundTrip.

(** A compressed audio frame with the largest sequence number and an
    uncompressed handshake frame both come back from the wire. *)
Lemma decode_encode_witness :
  decode unstore (encode store audio_frame) = inr audio_frame
  /\ decode unstore (encode store handshake_frame) = inr handshake_frame.
Proof.
  split; apply (decode_encode store unstore (fun p => eq_refl));
    (split; [split|]); cbn; lia.
Defined.

(** An unrecognized type, a truncated buffer and a wrong length field
    are malformed. *)
Example decode_malformed :
  decode unstore (x09 :: tl (encode store handshake_frame)) = inl MalformedFrame
  /\ decode unstore (removelast (encode store handshake_frame)) = inl MalformedFrame
  /\ decode unstore (encode store handshake_frame ++ [x00]) = inl MalformedFrame.
Proof. repeat split. Qed.
End FrameCodecFacts.

(* ===================================================================== *)
(** * Further properties of the front end *)
(* ===================================================================== *)

(** ** Toasts and the record button of [App] *)

Section Toasts.
Context {Backend : Type}.
Implicit Types w : World Backend.

Lemma exec_bind {A B} (m : UI Backend A) (k : A -> UI Backend B) w :
  exec (m ≫= k) w = exec (k (fst (fst (m w)))) (exec m w).
Proof.
  unfold exec, mbind, UI_bind. destruct (m w) as [[a w1] l1]. cbn.
  destruct (k a w1) as [[b w2] l2]. reflexivity.
Qed.

Lemma log_of_bind {A B} (m : UI Backend A) (k : A -> UI Backend B) w :
  log_of (m ≫= k) w = log_of m w ++ log_of (k (fst (fst (m w)))) (exec m w).
Proof.
  unfold exec, log_of, mbind, UI_bind. destruct (m w) as [[a w1] l1]. cbn.
  destruct (k a w1) as [[b w2] l2]. reflexivity.
Qed.

Lemma filter_all {A} (P : A -> Prop) `{forall x, Decision (P x)} (l : list A) :
  (forall x, x ∈ l -> P x) -> filter P l = l.
Proof.
  induction l as [|x l IH]; intros Hall; [reflexivity|].
  rewrite filter_cons_True by (apply Hall; left).
  f_equal. apply IH. intros y Hy. apply Hall. now right.
Qed.

Lemma World_eta w :
  mkWorld
    (mkAppState (state (ui w)) (transcript (ui w)) (toasts (ui w)) (config (ui w)))
    (backend w) (now w) = w.
Proof. now destruct w as [[] ? ?]. Qed.

Lemma showToast_run message type w :
  showToast message type w =
    (tt,
     mkWorld
       (mkAppState (state (ui w)) (transcript (ui w))
          (toasts (ui w) ++ [Toast.mk (now w) message type]) (config (ui w)))
       (backend w) (now w),
     [AShowToast message type; ASetTimeout 4000 (now w)]).
Proof. reflexivity. Qed.

(** X1. A toast that is shown and then dismissed under its id, by the
    user or by its timer, leaves the world as it was, provided no toast
    on screen carries the id already. *)
Theorem showToast_then_dismiss w message type :
  (forall t, t ∈ toasts (ui w) -> Toast.id t <> now w) ->
  exec (showToast message type;; dismissToast (now w)) w = w.
Proof.
  intros Hfresh. rewrite exec_bind. unfold exec. rewrite showToast_run. cbn.
  rewrite filter_app, (filter_all _ _ Hfresh).
  rewrite filter_cons_False, filter_nil, app_nil_r by (cbn; tauto).
  apply World_eta.
Qed.

(** X2. Toasts take their id from the clock: two toasts shown within one
    millisecond share it, and dismissing the first, or its timer firing,
    removes both. *)
Theorem toasts_of_one_millisecond w m1 t1 m2 t2 :
  let shown := exec (showToast m1 t1;; showToast m2 t2) w in
  toasts (ui shown)
    = toasts (ui w) ++ [Toast.mk (now w) m1 t1; Toast.mk (now w) m2 t2]
  /\ toasts (ui (exec (dismissToast (now w)) shown))
     = filter (fun t => Toast.id t <> now w) (toasts (ui w)).
Proof.
  cbn zeta. rewrite exec_bind. unfold exec. rewrite !showToast_run. cbn. split.
  - now rewrite <- app_assoc.
  - rewrite !filter_app.
    rewrite !filter_cons_False, filter_nil, !app_nil_r by (cbn; tauto).
    reflexivity.
Qed.

Lemma commands_of_app l1 l2 :
  commands_of (l1 ++ l2) = commands_of l1 ++ commands_of l2.
Proof. apply omap_app. Qed.

End Toasts.

Section MoreControls.
Context {Backend : Type}.
Variable invoke_backend :
  string -> Backend -> Reply * list BackendEvent * Backend.

Implicit Types w : World Backend.

Lemma commands_of_deliver evs w : commands_of (log_of (deliver evs) w) = [].
Proof.
  pose proof (deliver_no_invoke invoke_backend evs w) as Hno.
  induction (log_of (deliver evs) w) as [|a l IH]; [reflexivity|].
  unfold commands_of in *. cbn.
  destruct a; try (apply IH; intros cmd Hin; apply (Hno cmd); now right).
  exfalso. apply (Hno cmd). now left.
Qed.

(** X3. [startRecording] leaves the state to the [recording-started]
    listener.  When the backend accepts the command and no event arrives
    before the promise resolves, the state is still idle, and a release
    of the button then sends nothing: [stopRecording] returns at its
    guard. *)
Theorem release_before_recording_started w b' :
  state (ui w) = idle ->
  invoke_backend "start_recording" (backend w) = (Resolved, [], b') ->
  let w1 := exec (startRecording invoke_backend) w in
  ui w1 = ui w
  /\ backend w1 = b'
  /\ log_of (startRecording invoke_backend) w = [AInvoke "start_recording"]
  /\ stopRecording invoke_backend w1 = (tt, w1, []).
Proof.
  intros Hi Hb. pose proof (startRecording_idle invoke_backend w _ _ _ Hi Hb) as Hrun.
  cbn in Hrun. cbn zeta. unfold exec, log_of. rewrite Hrun. cbn.
  repeat split. unfold stopRecording. cbn [ui]. rewrite Hi.
  destruct (decide (idle <> recording)) as [_|Hn]; [reflexivity|].
  exfalso. apply Hn. discriminate.
Qed.

(** X4. A press and a release of the record button against a backend that
    announces the recording when it accepts [start_recording], and
    delivers the final text when it accepts [stop_recording]: the two
    commands are issued in that order and no other, and the window ends
    idle, showing the final text. *)
Theorem record_cycle w evs1 b1 evs2 b2 text :
  state (ui w) = idle ->
  invoke_backend "start_recording" (backend w)
    = (Resolved, evs1 ++ [recording_started], b1) ->
  invoke_backend "stop_recording" b1
    = (Resolved, evs2 ++ [recording_stopped text], b2) ->
  let press_release := startRecording invoke_backend;; stopRecording invoke_backend in
  state (ui (exec press_release w)) = idle
  /\ transcript (ui (exec press_release w)) = text
  /\ backend (exec press_release w) = b2
  /\ commands_of (log_of press_release w) = ["start_recording"; "stop_recording"].
Proof.
  intros Hi Hb1 Hb2. cbn zeta.
  pose proof (startRecording_idle invoke_backend w _ _ _ Hi Hb1) as Hrun1.
  cbn zeta in Hrun1.
  set (w0 := mkWorld (ui w) b1 (now w)) in *.
  set (w1 := exec (deliver (evs1 ++ [recording_started])) w0) in *.
  assert (Hw1 : exec (startRecording invoke_backend) w = w1).
  { unfold exec at 1. now rewrite Hrun1. }
  assert (Hs1 : state (ui w1) = recording).
  { unfold w1. now rewrite deliver_app. }
  assert (Hbk1 : backend w1 = b1).
  { unfold w1. now rewrite (proj1 (deliver_backend invoke_backend _ w0)). }
  rewrite <- Hbk1 in Hb2.
  pose proof (stopRecording_recording invoke_backend w1 _ _ _ Hs1 Hb2) as Hrun2.
  cbn zeta in Hrun2.
  set (w2 := mkWorld (mkAppState processing (transcript (ui w1)) (toasts (ui w1))
                        (config (ui w1))) b2 (now w1)) in *.
  assert (Hw2 : exec (stopRecording invoke_backend) w1
                = exec (deliver (evs2 ++ [recording_stopped text])) w2).
  { unfold exec at 1. now rewrite Hrun2. }
  assert (Hl1 : log_of (startRecording invoke_backend) w
                = AInvoke "start_recording"
                  :: log_of (deliver (evs1 ++ [recording_started])) w0).
  { unfold log_of at 1. now rewrite Hrun1. }
  assert (Hl2 : log_of (stopRecording invoke_backend) w1
                = ASetState processing :: AInvoke "stop_recording"
                  :: log_of (deliver (evs2 ++ [recording_stopped text])) w2).
  { unfold log_of at 1. now rewrite Hrun2. }
  rewrite exec_bind, log_of_bind, Hw1, Hw2, Hl1, Hl2, deliver_app.
  repeat split.
  - rewrite (proj1 (deliver_backend invoke_backend _ _)).
    now rewrite (proj1 (deliver_backend invoke_backend _ _)).
  - rewrite commands_of_app.
    change (commands_of (AInvoke ?c :: ?l)) with (c :: commands_of l).
    change (commands_of (ASetState ?s :: AInvoke ?c :: ?l)) with (c :: commands_of l).
    now rewrite !commands_of_deliver.
Qed.

End MoreControls.

Lemma showToast_then_dismiss_witness :
  exec (showToast "Testing connection..." info;; dismissToast 1700000000000)
    world_with_toast = world_with_toast.
Proof.
  apply (showToast_then_dismiss world_with_toast "Testing connection..." info).
  intros t Ht. inversion Ht as [|? ? ? Hnil]; subst; [discriminate|inversion Hnil].
Defined.

Lemma release_before_recording_started_witness :
  let w1 := exec (startRecording silent_backend) (world_in idle) in
  ui w1 = ui (world_in idle)
  /\ backend w1 = tt
  /\ log_of (startRecording silent_backend) (world_in idle)
     = [AInvoke "start_recording"]
  /\ stopRecording silent_backend w1 = (tt, w1, []).
Proof.
  apply (release_before_recording_started silent_backend (world_in idle) tt);
    reflexivity.
Defined.

Lemma record_cycle_witness :
  let press_release := startRecording dictating_backend;; stopRecording dictating_backend in
  state (ui (exec press_release (world_in idle))) = idle
  /\ transcript (ui (exec press_release (world_in idle))) = "hello there."
  /\ backend (exec press_release (world_in idle)) = tt
  /\ commands_of (log_of press_release (world_in idle))
     = ["start_recording"; "stop_recording"].
Proof.
  apply (record_cycle dictating_backend (world_in idle) [] tt
           [transcript_update "hello"] tt "hello there."); reflexivity.
Defined.

(** ** The record button of the Vue component *)

Lemma Vue_step_invariant (a : Vue.AppState) (i : VueLoop.Input) :
  (Vue.isProcessing a = true -> Vue.isRecording a = true) ->
  Vue.isProcessing (fst (VueLoop.step a i)) = true ->
  Vue.isRecording (fst (VueLoop.step a i)) = true.
Proof.
  intros Hinv. destruct a as [r p t s]. cbn in Hinv.
  destruct i as [| | |[]|[]|[]]; destruct r, p; cbn; auto; discriminate.
Qed.

(** X5. In the Vue component [isProcessing] is never set without
    [isRecording], whatever the mouse, the backend events and the settling
    of the commands do and in whatever order; the status line, which asks
    for [isRecording] first, therefore never reads as processing. *)
Theorem Vue_never_shows_processing (inputs : list VueLoop.Input) :
  let a := VueLoop.run Vue.initial_AppState inputs in
  (Vue.isProcessing a = true -> Vue.isRecording a = true)
  /\ VueLoop.status_text a <> "处理中...".
Proof.
  cbn zeta.
  assert (Hinv : forall a,
            (Vue.isProcessing a = true -> Vue.isRecording a = true) ->
            Vue.isProcessing (VueLoop.run a inputs) = true ->
            Vue.isRecording (VueLoop.run a inputs) = true).
  { induction inputs as [|i inputs IH]; intros a Ha; [exact Ha|].
    cbn. apply IH. now apply Vue_step_invariant. }
  specialize (Hinv Vue.initial_AppState (fun H => H)).
  split; [exact Hinv|].
  unfold VueLoop.status_text.
  destruct (Vue.isRecording _); [discriminate|].
  destruct (Vue.isProcessing _); [|discriminate].
  specialize (Hinv eq_refl). discriminate.
Qed.

(** X6. A [stop_recording] that fails leaves the Vue component as it was
    while recording: the release set [isProcessing] and the failure clears
    it, [isRecording] stays.  A second release sends [stop_recording]
    again, and a press sends nothing. *)
Theorem Vue_failed_stop_keeps_recording (a : Vue.AppState) (e : string) :
  Vue.isRecording a = true ->
  Vue.isProcessing a = false ->
  let a' := VueLoop.run a [VueLoop.mouseup; VueLoop.stop_settled (Rejected e)] in
  a' = a
  /\ snd (VueLoop.step a' VueLoop.mouseup) = [VueLoop.OInvoke "stop_recording"]
  /\ VueLoop.step a' VueLoop.mousedown = (a', []).
Proof.
  destruct a as [r p t s]. cbn. intros -> ->. cbn. repeat split.
Qed.

Lemma Vue_failed_stop_keeps_recording_witness :
  let a := Vue.on_recording_started Vue.initial_AppState in
  VueLoop.run a [VueLoop.mouseup; VueLoop.stop_settled (Rejected "TransportClosed")] = a.
Proof.
  apply (Vue_failed_stop_keeps_recording
           (Vue.on_recording_started Vue.initial_AppState) "TransportClosed");
    reflexivity.
Defined.

(** ** The main window and the indicator window *)

Lemma App_run_snoc {Backend} (evs : list Indicator.WindowEvent) ev (w : World Backend) :
  exec (App_run (evs ++ [ev])) w = exec (App_listen ev) (exec (App_run evs) w).
Proof.
  revert w. induction evs as [|e evs IH]; intros w; cbn [App_run app].
  - rewrite exec_bind. unfold exec. cbn.
    now destruct (App_listen ev w) as [[[] w1] l1].
  - now rewrite !exec_bind, IH.
Qed.

Lemma App_listen_state {Backend} (ev : Indicator.WindowEvent) (w : World Backend) :
  heard_by_indicator ev = false \/ announcement ev = false ->
  state (ui (exec (App_listen ev) w)) = state (ui w).
Proof. destruct ev as [[]|]; cbn; intros [H|H]; try discriminate; reflexivity. Qed.

Lemma windows_agree_announced {Backend} (ev : Indicator.WindowEvent)
    (w : World Backend) (s : Indicator.IndicatorState) :
  announcement ev = true ->
  windows_agree (exec (App_listen ev) w) (Indicator.listen ev s).
Proof.
  unfold windows_agree. destruct ev as [[]|]; cbn; intros H; try discriminate; tauto.
Qed.

(** X7. The main window and the indicator window between two uses of the
    record button, fed the same window events, once a recording's start
    or end was announced.  They agree, the main window recording while
    the indicator reads "Listening" and idle while it reads "Processing",
    exactly when the last event the indicator has a listener for was an
    announcement; otherwise it was [indicator-not-configured] and the
    indicator reads "Not Configured" over a main window that is recording
    or idle.  A release of the record button ends the agreement too: the
    main window is then processing until the backend announces the end,
    which no state of the indicator matches. *)
Theorem windows_agree_iff_last_heard {Backend}
    (invoke_backend : string -> Backend -> Reply * list BackendEvent * Backend)
    (w : World Backend) (s : Indicator.IndicatorState)
    (evs : list Indicator.WindowEvent) :
  existsb announcement evs = true ->
  let w' := exec (App_run evs) w in
  let s' := Indicator.run s evs in
  (windows_agree w' s' <-> last_heard_announces evs = true)
  /\ (last_heard_announces evs = false ->
      Indicator.label s' = "Not Configured"
      /\ (state (ui w') = recording \/ state (ui w') = idle))
  /\ (forall pending b' s'',
        state (ui w') = recording ->
        invoke_backend "stop_recording" (backend w') = (Resolved, pending, b') ->
        Forall (fun ev => announces ev = false) pending ->
        state (ui (exec (stopRecording invoke_backend) w')) = processing
        /\ ~ windows_agree (exec (stopRecording invoke_backend) w') s'').
Proof.
  intros Hann. cbn zeta.
  assert (Hmain :
    (windows_agree (exec (App_run evs) w) (Indicator.run s evs)
     <-> last_heard_announces evs = true)
    /\ (last_heard_announces evs = false ->
        Indicator.label (Indicator.run s evs) = "Not Configured"
        /\ (state (ui (exec (App_run evs) w)) = recording
            \/ state (ui (exec (App_run evs) w)) = idle))).
  { revert Hann. induction evs as [|ev evs IH] using rev_ind; [discriminate|].
    intros Hann. rewrite App_run_snoc.
    unfold Indicator.run in *. rewrite foldl_snoc.
    unfold last_heard_announces in *. rewrite List.filter_app. cbn [List.filter].
    rewrite existsb_app in Hann. cbn in Hann. rewrite orb_false_r in Hann.
    destruct (announcement ev) eqn:Ha.
    - (* an announcement: both windows take its state *)
      assert (Hh : heard_by_indicator ev = true) by (destruct ev as [[]|]; easy).
      rewrite Hh, last_snoc, Ha. split; [|discriminate].
      split; [reflexivity|]. intros _. now apply windows_agree_announced.
    - apply orb_true_iff in Hann as [Hann|Hann]; [|discriminate].
      specialize (IH Hann) as [IHiff IHnot].
      destruct (heard_by_indicator ev) eqn:Hh.
      + (* not configured: the indicator leaves, the main window stays *)
        destruct ev as [[]|]; try discriminate.
        rewrite last_snoc. cbn [announcement]. split.
        * split; [|discriminate].
          unfold windows_agree. cbn. intros [[_ H]|[_ H]]; discriminate.
        * intros _. split; [reflexivity|].
          change (exec (App_listen Indicator.indicator_not_configured) ?x) with x.
          destruct (last (List.filter heard_by_indicator evs)) as [e|] eqn:Hl.
          -- destruct (announcement e) eqn:He.
             ++ destruct (proj2 IHiff eq_refl) as [[H _]|[H _]]; tauto.
             ++ now apply IHnot.
          -- now apply IHnot.
      + (* no listener in the indicator, and none that sets the state here *)
        rewrite app_nil_r.
        assert (Hst : state (ui (exec (App_listen ev) (exec (App_run evs) w)))
                      = state (ui (exec (App_run evs) w)))
          by (apply App_listen_state; now left).
        assert (Hs : Indicator.listen ev (foldl (fun s ev => Indicator.listen ev s) s evs)
                     = foldl (fun s ev => Indicator.listen ev s) s evs)
          by (destruct ev as [[]|]; try discriminate; reflexivity).
        unfold windows_agree in *. rewrite Hst, Hs. split; [exact IHiff|exact IHnot]. }
  destruct Hmain as [Hiff Hnot]. split; [exact Hiff|]. split; [exact Hnot|].
  intros pending b' s'' Hrec Hb Hquiet.
  pose proof (stopRecording_recording invoke_backend _ _ _ _ Hrec Hb) as Hrun.
  cbn zeta in Hrun.
  assert (Hst : state (ui (exec (stopRecording invoke_backend) (exec (App_run evs) w)))
                = processing).
  { unfold exec at 1. rewrite Hrun. cbn [fst snd].
    now rewrite deliver_keeps_state. }
  split; [exact Hst|].
  unfold windows_agree. rewrite Hst. intros [[H _]|[H _]]; discriminate.
Qed.

Lemma windows_agree_iff_last_heard_witness :
  let evs :=
    [ Indicator.indicator_not_configured; Indicator.of_backend recording_started;
      Indicator.of_backend (transcript_update "he") ] in
  windows_agree (exec (App_run evs) (world_in idle)) (Indicator.run Indicator.initial evs)
  <-> last_heard_announces evs = true.
Proof.
  apply (windows_agree_iff_last_heard silent_backend (world_in idle) Indicator.initial
           [ Indicator.indicator_not_configured; Indicator.of_backend recording_started;
             Indicator.of_backend (transcript_update "he") ]).
  reflexivity.
Defined.

(** ** The provider list *)

Lemma with_providers_same (c : Config.t) :
  with_providers c (providers_of c) (active_of c) = c.
Proof. now destruct c as [? ? ? ? ? ? ? ? ? ? [] ? ? ?]. Qed.

Lemma preset_lookup_In key preset :
  In (key, preset) PROVIDER_PRESETS -> preset_lookup key PROVIDER_PRESETS = Some preset.
Proof.
  cbn. intros H.
  repeat (destruct H as [H|H]; [inversion H; subst; reflexivity|]).
  contradiction.
Qed.

Lemma preset_default_offered key preset :
  In (key, preset) PROVIDER_PRESETS ->
  In (ProviderPreset.default_model preset) (ProviderPreset.models preset).
Proof.
  cbn. intros H.
  repeat (destruct H as [H|H]; [inversion H; subst; cbn; tauto|]).
  contradiction.
Qed.

(** X8. Adding a provider from a preset of the table appends one provider
    and touches no other: its id is the preset key, a dash and the clock,
    its endpoint and name are the preset's, its key is empty and its model
    is one the preset offers.  It becomes the active provider only if the
    list was empty; [enabled] and [mode] stay. *)
Theorem addProviderFromPreset_appends key preset date_now (prev : Config.t) :
  In (key, preset) PROVIDER_PRESETS ->
  exists update provider,
    addProviderFromPreset key date_now = Some update
    /\ providers_of (update prev) = providers_of prev ++ [provider]
    /\ LlmProvider.id provider
       = String.append key (String.append "-" (pretty.pretty date_now))
    /\ LlmProvider.name provider = ProviderPreset.name preset
    /\ LlmProvider.api_base provider = ProviderPreset.api_base preset
    /\ LlmProvider.api_key provider = ""
    /\ In (LlmProvider.model provider) (ProviderPreset.models preset)
    /\ active_of (update prev)
       = (if decide (providers_of prev = []) then LlmProvider.id provider
          else active_of prev)
    /\ PostProcessConfig.enabled (Config.postprocess (update prev))
       = PostProcessConfig.enabled (Config.postprocess prev)
    /\ PostProcessConfig.mode (Config.postprocess (update prev))
       = PostProcessConfig.mode (Config.postprocess prev).
Proof.
  intros Hin. unfold addProviderFromPreset.
  rewrite (preset_lookup_In _ _ Hin). eexists. eexists.
  split; [reflexivity|]. cbn.
  repeat split; try reflexivity.
  - now apply preset_default_offered with key.
  - destruct (providers_of prev) as [|p ps]; reflexivity.
Qed.

Lemma addProviderFromPreset_appends_witness :
  exists update provider,
    addProviderFromPreset "kimi" 1700000000000 = Some update
    /\ providers_of (update initial_config) = providers_of initial_config ++ [provider]
    /\ LlmProvider.id provider = "kimi-1700000000000"
    /\ active_of (update initial_config) = "default".
Proof.
  destruct (addProviderFromPreset_appends "kimi"
              (ProviderPreset.mk "Kimi (Moonshot)" "https://api.moonshot.cn/v1"
                 ["moonshot-v1-8k"; "moonshot-v1-32k"; "moonshot-v1-128k"]
                 "moonshot-v1-8k")
              1700000000000 initial_config)
    as (update & provider & Hrun & Hps & Hid & _ & _ & _ & _ & Hact & _).
  { cbn. tauto. }
  exists update, provider. repeat split; assumption.
Defined.

(** X9. Adding a provider from a preset and deleting it again, at the
    index where it was appended, gives back the configuration, when the
    list had a provider before and the active id is not the id the new
    provider was given. *)
Theorem add_then_delete_restores key preset date_now (config : Config.t) :
  In (key, preset) PROVIDER_PRESETS ->
  providers_of config <> [] ->
  active_of config <> String.append key (String.append "-" (pretty.pretty date_now)) ->
  exists add del,
    addProviderFromPreset key date_now = Some add
    /\ deleteProvider (add config) (length (providers_of config)) = inr del
    /\ del (add config) = config.
Proof.
  intros Hin Hne Hact. unfold addProviderFromPreset.
  rewrite (preset_lookup_In _ _ Hin).
  destruct config as [? ? ? ? ? ? ? ? ? ? [en ps act md] ? ? ?].
  cbn [Config.postprocess PostProcessConfig.providers
       PostProcessConfig.active_provider_id] in *.
  eexists. eexists. split; [reflexivity|].
  unfold deleteProvider, with_providers.
  cbn [Config.postprocess PostProcessConfig.providers
       PostProcessConfig.active_provider_id PostProcessConfig.enabled
       PostProcessConfig.mode Config.app_id Config.access_token Config.secret_key
       Config.shortcut Config.auto_type Config.auto_copy Config.auto_start
       Config.silent_start Config.show_indicator Config.realtime_input
       Config.audio_device Config.asr Config.asr_language].
  rewrite Array_filter_delete.
  rewrite list_lookup_middle by reflexivity. rewrite delete_middle, app_nil_r.
  destruct (decide (length ps = 0%nat)) as [Hlen|_].
  { destruct ps; [contradiction|discriminate]. }
  cbn [LlmProvider.id].
  destruct (decide (act = _)); [contradiction|].
  split; reflexivity.
Qed.

Lemma add_then_delete_restores_witness :
  exists add del,
    addProviderFromPreset "openai" 1700000000000 = Some add
    /\ deleteProvider (add initial_config) (length (providers_of initial_config)) = inr del
    /\ del (add initial_config) = initial_config.
Proof.
  apply (add_then_delete_restores "openai"
           (ProviderPreset.mk "OpenAI" "https://api.openai.com/v1"
              ["gpt-4o"; "gpt-4o-mini"; "gpt-4-turbo"; "gpt-3.5-turbo"] "gpt-4o-mini")
           1700000000000 initial_config).
  - cbn. tauto.
  - discriminate.
  - discriminate.
Defined.

(** X10. [updateProvider] at an index of the render's list replaces that
    provider by itself with the given properties overwritten and keeps
    every other position, the length, the active id, [enabled] and
    [mode].  The list is the render's: whatever list [prev] holds is
    overwritten. *)
Theorem updateProvider_in_place
    (config prev : Config.t) (index : nat) (provider : LlmProvider.t)
    (updates : PartialLlmProvider.t) :
  providers_of config !! index = Some provider ->
  exists update,
    updateProvider config index updates = Some update
    /\ length (providers_of (update prev)) = length (providers_of config)
    /\ providers_of (update prev) !! index = Some (spread_provider provider updates)
    /\ (forall j, j <> index ->
          providers_of (update prev) !! j = providers_of config !! j)
    /\ active_of (update prev) = active_of prev
    /\ PostProcessConfig.enabled (Config.postprocess (update prev))
       = PostProcessConfig.enabled (Config.postprocess prev)
    /\ PostProcessConfig.mode (Config.postprocess (update prev))
       = PostProcessConfig.mode (Config.postprocess prev)
    /\ (PartialLlmProvider.id updates = None ->
        LlmProvider.id (spread_provider provider updates) = LlmProvider.id provider).
Proof.
  intros Hp. unfold updateProvider. rewrite Hp. eexists. split; [reflexivity|].
  cbn. repeat split.
  - apply length_insert.
  - apply list_lookup_insert_eq. now apply lookup_lt_Some in Hp.
  - intros j Hj. now apply list_lookup_insert_ne.
  - intros ->. reflexivity.
Qed.

Lemma updateProvider_in_place_witness :
  exists update,
    updateProvider initial_config 0 (field_update field_api_key "sk-test") = Some update
    /\ providers_of (update initial_config) !! 0%nat
       = Some (LlmProvider.mk "default" "DeepSeek" "https://api.deepseek.com/v1"
                 "sk-test" "deepseek-chat")
    /\ active_of (update initial_config) = "default".
Proof.
  destruct (updateProvider_in_place initial_config initial_config 0%nat
              (LlmProvider.mk "default" "DeepSeek" "https://api.deepseek.com/v1" ""
                 "deepseek-chat")
              (field_update field_api_key "sk-test") eq_refl)
    as (update & Hrun & _ & Hat & _ & Hact & _).
  exists update. repeat split; assumption.
Defined.

Lemma custom_provider_id_not_empty date_now :
  LlmProvider.id (custom_provider date_now) <> "".
Proof. discriminate. Qed.

(** X11. On an empty provider list the two ways of adding differ.  A
    provider added from a preset becomes the active one.  A custom
    provider is appended and the active id is left as it was, so that with
    an empty active id, as [deleteProvider] leaves it on an empty list,
    the list has a provider and none is active. *)
Theorem add_to_empty_list key preset date_now (config : Config.t) :
  In (key, preset) PROVIDER_PRESETS ->
  providers_of config = [] ->
  (exists add,
      addProviderFromPreset key date_now = Some add
      /\ active_valid (add config))
  /\ providers_of (add_custom_provider date_now config) = [custom_provider date_now]
  /\ active_of (add_custom_provider date_now config) = active_of config
  /\ (active_of config = "" -> ~ active_valid (add_custom_provider date_now config)).
Proof.
  intros Hin Hnil. unfold addProviderFromPreset, active_valid, add_custom_provider.
  rewrite (preset_lookup_In _ _ Hin). cbn. rewrite Hnil. cbn.
  repeat split.
  - eexists. split; [reflexivity|]. cbn. rewrite Hnil. cbn.
    eexists. split; [left|reflexivity].
  - intros Hact (q & Hq & Hid). rewrite Hact in Hid.
    apply list_elem_of_singleton in Hq. subst q. discriminate.
Qed.

Lemma add_to_empty_list_witness :
  let empty := with_providers initial_config [] "" in
  (exists add,
      addProviderFromPreset "ollama" 1700000000000 = Some add
      /\ active_valid (add empty))
  /\ providers_of (add_custom_provider 1700000000000 empty)
     = [custom_provider 1700000000000]
  /\ active_of (add_custom_provider 1700000000000 empty) = active_of empty
  /\ (active_of empty = "" -> ~ active_valid (add_custom_provider 1700000000000 empty)).
Proof.
  apply (add_to_empty_list "ollama"
           (ProviderPreset.mk "Ollama (Local)" "http://localhost:11434/v1"
              ["llama3"; "qwen2"; "mistral"] "llama3")
           1700000000000 (with_providers initial_config [] "")).
  - cbn. tauto.
  - reflexivity.
Defined.

Lemma active_valid_with_providers (c : Config.t) ps act :
  active_valid (with_providers c ps act)
  <-> exists provider, provider ∈ ps /\ LlmProvider.id provider = act.
Proof. reflexivity. Qed.

Lemma updateProvider_field_valid (config : Config.t) index field value update :
  updateProvider config index (field_update field value) = Some update ->
  active_valid config -> active_valid (update config).
Proof.
  unfold updateProvider.
  destruct (providers_of config !! index) as [p|] eqn:Hp; [|discriminate].
  intros [= <-] (q & Hq & Hid). apply active_valid_with_providers.
  apply list_elem_of_lookup in Hq as [j Hj].
  destruct (decide (j = index)) as [->|Hne].
  - exists (spread_provider p (field_update field value)). split.
    + apply list_elem_of_lookup. exists index.
      apply list_lookup_insert_eq. now apply lookup_lt_Some in Hp.
    + rewrite Hp in Hj. injection Hj as <-. rewrite <- Hid. now destruct field.
  - exists q. split; [|exact Hid].
    apply list_elem_of_lookup. exists j. now rewrite list_lookup_insert_ne.
Qed.

Lemma apply_edit_keeps_active_valid (config : Config.t) (e : ProviderEdit) :
  active_valid config -> active_valid (apply_edit config e).
Proof.
  intros Hv. pose proof Hv as (q & Hq & Hid).
  assert (Hsame : forall c', providers_of c' = providers_of config ->
                             active_of c' = active_of config -> active_valid c').
  { intros c' Hps Hact. exists q. now rewrite Hps, Hact. }
  unfold apply_edit.
  destruct e as [key date_now|date_now|index|index|index field value|index value|en|md];
    try (now apply Hsame);
    destruct (PostProcessConfig.enabled (Config.postprocess config)); try exact Hv.
  - (* AddPreset *)
    unfold addProviderFromPreset.
    destruct (preset_lookup key PROVIDER_PRESETS) as [preset|]; [|exact Hv].
    apply active_valid_with_providers.
    destruct (decide (length (providers_of config) = 0%nat)) as [Hlen|_].
    { destruct (providers_of config); [inversion Hq|discriminate]. }
    exists q. split; [|exact Hid]. apply elem_of_app. now left.
  - (* AddCustom *)
    apply active_valid_with_providers.
    exists q. split; [|exact Hid]. apply elem_of_app. now left.
  - (* Delete *)
    destruct (decide (1 < length (providers_of config))%nat) as [Hlen|_]; [|exact Hv].
    unfold deleteProvider.
    destruct (providers_of config !! index) as [p|] eqn:Hp; [|exact Hv].
    rewrite Array_filter_delete, or_empty_first.
    apply active_valid_with_providers.
    destruct (decide (active_of config = LlmProvider.id p)) as [Heq|Hne].
    + destruct (delete index (providers_of config)) as [|first rest] eqn:Hrest.
      * apply (f_equal length) in Hrest. rewrite length_delete in Hrest.
        -- cbn in Hrest. lia.
        -- rewrite Hp. eauto.
      * exists first. split; [left|reflexivity].
    + exists q. split; [|exact Hid].
      apply list_elem_of_lookup in Hq as [j Hj].
      apply (elem_of_delete_other _ index j q Hj).
      intros ->. rewrite Hp in Hj. congruence.
  - (* Select *)
    unfold select_provider.
    destruct (providers_of config !! index) as [p|] eqn:Hp; [|exact Hv].
    apply active_valid_with_providers. exists p. split; [|reflexivity].
    apply list_elem_of_lookup. eauto.
  - (* Update *)
    destruct (updateProvider config index (field_update field value)) as [update|] eqn:Hu;
      [|exact Hv].
    now apply (updateProvider_field_valid config index field value).
  - (* PickModel *)
    destruct (providers_of config !! index) as [p|] eqn:Hp; [|exact Hv].
    destruct (matchingPreset p); [|exact Hv].
    unfold onChange_model_select. rewrite Hp.
    destruct (String.eqb value "__custom__").
    + destruct (negb (isCustomModel p)); [|exact Hv].
      destruct (updateProvider config index (field_update field_model "")) as [update|] eqn:Hu;
        [|exact Hv].
      now apply (updateProvider_field_valid config index field_model "").
    + destruct (updateProvider config index (field_update field_model value)) as [update|] eqn:Hu;
        [|exact Hv].
      now apply (updateProvider_field_valid config index field_model value).
Qed.

(** X12. The controls of the provider settings keep the active reference
    valid.  When the active id names a provider of the list, it still does
    after any sequence of uses of the controls that are rendered: adding
    from a preset or a custom provider, deleting (offered only while more
    than one provider is left), picking the active provider, editing a
    field or the model of a card, switching post-processing on or off and
    choosing the mode.  In particular the list never becomes empty. *)
Theorem provider_edits_keep_active_valid (config : Config.t) (edits : list ProviderEdit) :
  active_valid config ->
  active_valid (foldl apply_edit config edits)
  /\ providers_of (foldl apply_edit config edits) <> [].
Proof.
  intros Hv.
  assert (H : active_valid (foldl apply_edit config edits)).
  { revert config Hv. induction edits as [|e edits IH]; intros config Hv; [exact Hv|].
    cbn. apply IH. now apply apply_edit_keeps_active_valid. }
  split; [exact H|].
  destruct H as (q & Hq & _). intros Hnil. rewrite Hnil in Hq. inversion Hq.
Qed.

Lemma provider_edits_keep_active_valid_witness :
  let edits :=
    [ SetEnabled true; AddPreset "openai" 1700000000000; Select 1%nat;
      Update 1%nat field_api_key "sk-test"; Delete 1%nat; Delete 0%nat ] in
  active_valid (foldl apply_edit initial_config edits)
  /\ providers_of (foldl apply_edit initial_config edits) <> [].
Proof.
  apply (provider_edits_keep_active_valid initial_config).
  exists (LlmProvider.mk "default" "DeepSeek" "https://api.deepseek.com/v1" ""
            "deepseek-chat").
  split; [left|reflexivity].
Defined.

Lemma existsb_eqb_In (s : string) (l : list string) :
  existsb (String.eqb s) l = true <-> In s l.
Proof.
  rewrite existsb_exists. split.
  - intros (x & Hx & Heq). apply String.eqb_eq in Heq. now subst.
  - intros Hin. exists s. split; [exact Hin|apply String.eqb_refl].
Qed.

(** No preset offers a model without a name or one called [__custom__]. *)
Lemma preset_models_named (provider : LlmProvider.t) preset :
  matchingPreset provider = Some preset ->
  ~ In "" (ProviderPreset.models preset)
  /\ ~ In "__custom__" (ProviderPreset.models preset).
Proof.
  intros Hm. apply find_some in Hm as [Hin _].
  cbn in Hin.
  repeat (destruct Hin as [<-|Hin]; [cbn; split; intuition discriminate|]).
  contradiction.
Qed.

Lemma spread_model (provider : LlmProvider.t) (m : string) :
  LlmProvider.model (spread_provider provider (field_update field_model m)) = m.
Proof. reflexivity. Qed.

(** X13. The model [<select>] of a provider card shows what was picked.
    After its [onChange] with one of its options, a model of the matching
    preset or "Custom model...", the card's provider is one for which the
    select's value is that option; a picked model is the provider's model,
    and picking "Custom model..." on a provider with a preset model empties
    the model, leaving it to the text input. *)
Theorem model_select_shows_choice
    (config : Config.t) (index : nat) (provider : LlmProvider.t)
    (preset : ProviderPreset.t) (value : string) :
  providers_of config !! index = Some provider ->
  matchingPreset provider = Some preset ->
  value = "__custom__" \/ In value (ProviderPreset.models preset) ->
  let config' :=
    match onChange_model_select config index value with
    | Some update => update config
    | None => config
    end in
  exists provider',
    providers_of config' !! index = Some provider'
    /\ model_select_value provider' = value
    /\ (value <> "__custom__" -> LlmProvider.model provider' = value)
    /\ (value = "__custom__" -> isCustomModel provider = false ->
        LlmProvider.model provider' = "").
Proof.
  intros Hp Hm Hopt. cbn zeta.
  destruct (preset_models_named _ _ Hm) as [Hno_empty Hno_custom].
  assert (Hlt : (index < length (providers_of config))%nat)
    by now apply lookup_lt_Some in Hp.
  unfold onChange_model_select, updateProvider. rewrite Hp.
  assert (Hpick : forall m,
            matchingPreset (spread_provider provider (field_update field_model m))
            = Some preset).
  { intros m. exact Hm. }
  destruct (String.eqb_spec value "__custom__") as [->|Hv].
  - destruct (isCustomModel provider) eqn:Hc; cbn [negb].
    + exists provider. split; [exact Hp|].
      unfold model_select_value. rewrite Hc. repeat split; congruence.
    + eexists. split; [apply list_lookup_insert_eq; exact Hlt|].
      unfold model_select_value, isCustomModel. rewrite Hpick.
      rewrite !spread_model.
      destruct (existsb _ _) eqn:He; cbn [negb].
      * apply existsb_eqb_In in He. contradiction.
      * repeat split; congruence.
  - destruct Hopt as [->|Hin]; [contradiction|].
    eexists. split; [apply list_lookup_insert_eq; exact Hlt|].
    unfold model_select_value, isCustomModel. rewrite Hpick.
    rewrite !spread_model.
    rewrite (proj2 (existsb_eqb_In value _) Hin). cbn [negb].
    repeat split; congruence.
Qed.

Lemma model_select_shows_choice_witness :
  let config' :=
    match onChange_model_select initial_config 0 "deepseek-reasoner" with
    | Some update => update initial_config
    | None => initial_config
    end in
  exists provider',
    providers_of config' !! 0%nat = Some provider'
    /\ model_select_value provider' = "deepseek-reasoner"
    /\ ("deepseek-reasoner" <> "__custom__" ->
        LlmProvider.model provider' = "deepseek-reasoner")
    /\ ("deepseek-reasoner" = "__custom__" ->
        isCustomModel
          (LlmProvider.mk "default" "DeepSeek" "https://api.deepseek.com/v1" ""
             "deepseek-chat") = false ->
        LlmProvider.model provider' = "").
Proof.
  apply (model_select_shows_choice initial_config 0%nat
           (LlmProvider.mk "default" "DeepSeek" "https://api.deepseek.com/v1" ""
              "deepseek-chat")
           (ProviderPreset.mk "DeepSeek" "https://api.deepseek.com/v1"
              ["deepseek-chat"; "deepseek-reasoner"] "deepseek-chat")
           "deepseek-reasoner").
  - reflexivity.
  - reflexivity.
  - right. cbn. tauto.
Defined.

#[local] Set Warnings "-clear-no-such-hyp".

(** X17. Collapsing is a toggle: the card of [id] is collapsed after
    [toggleProviderCollapse(id)] exactly when it was not before, no other
    card changes, and a second toggle gives back the set. *)
Theorem toggleProviderCollapse_involutive (id : string) (collapsed : gset string) :
  (id ∈ toggleProviderCollapse id collapsed <-> id ∉ collapsed)
  /\ (forall other, other <> id ->
        (other ∈ toggleProviderCollapse id collapsed <-> other ∈ collapsed))
  /\ toggleProviderCollapse id (toggleProviderCollapse id collapsed) = collapsed.
Proof.
  unfold toggleProviderCollapse.
  destruct (decide (id ∈ collapsed)) as [Hin|Hout].
  - split; [set_solver|]. split; [set_solver|].
    destruct (decide (id ∈ collapsed ∖ {[id]})); [set_solver|].
    apply set_eq. intros x. destruct (decide (x = id)); set_solver.
  - split; [set_solver|]. split; [set_solver|].
    destruct (decide (id ∈ collapsed ∪ {[id]})); [|set_solver].
    set_solver.
Qed.

(** ** The general settings form *)

(** X14. [updateConfig] on any object: the property it sets reads back as
    the value, every other property reads as before, and the object keeps
    its property names, in order, when the key was one of them. *)
Theorem updateConfig_get_set (key : string) (value : Json) (prev : list (string * Json)) :
  member key (JObject (updateConfig key value prev)) = Some value
  /\ (forall other, other <> key ->
        member other (JObject (updateConfig key value prev))
        = member other (JObject prev))
  /\ (In key (keys (JObject prev)) ->
      keys (JObject (updateConfig key value prev)) = keys (JObject prev)).
Proof.
  unfold updateConfig, member, keys. repeat split.
  - induction prev as [|[k v] prev IH]; cbn.
    + now rewrite String.eqb_refl.
    + destruct (String.eqb_spec k key) as [->|Hne]; cbn.
      * now rewrite String.eqb_refl.
      * destruct (String.eqb_spec k key); [contradiction|exact IH].
  - intros other Hother. induction prev as [|[k v] prev IH]; cbn.
    + destruct (String.eqb_spec key other); [congruence|reflexivity].
    + destruct (String.eqb_spec k key) as [->|Hne]; cbn.
      * destruct (String.eqb_spec key other); [congruence|reflexivity].
      * destruct (String.eqb_spec k other); [reflexivity|exact IH].
  - induction prev as [|[k v] prev IH]; cbn; [contradiction|].
    intros [Hk|Hin].
    + subst k. now rewrite String.eqb_refl.
    + destruct (String.eqb_spec k key); [reflexivity|].
      cbn. f_equal. now apply IH.
Qed.

(** X15. On a configuration, [updateConfig] does what the form means by
    it: for each key a text input or the shortcut recorder passes, with a
    string, and each key a checkbox passes, with a boolean, the updated
    object is the configuration with that one field replaced. *)
Theorem updateConfig_replaces_field (c : Config.t) :
  (forall k v,
     JObject (updateConfig (TextKey_name k) (JString v) (members_of (Config_to_json c)))
     = Config_to_json (with_text k v c))
  /\ (forall k v,
        JObject (updateConfig (CheckboxKey_name k) (JBool v) (members_of (Config_to_json c)))
        = Config_to_json (with_checkbox k v c)).
Proof. split; intros [] v; reflexivity. Qed.

(** X16. The shortcut recorder ignores a key press of a modifier alone:
    the configuration and the recording flag stay.  Any other key ends the
    recording and replaces the [shortcut] field, and no other, by the held
    modifiers in the order Ctrl, Alt, Shift, Super (Option and Cmd on
    macOS) and the name of the key, joined by [+]. *)
Theorem handleShortcutKeyDown_sets_shortcut
    (isMacOS : bool) (toUpperCase : string -> string)
    (e : KeyboardEvent) (c : Config.t) (recording_shortcut : bool) :
  let st := (members_of (Config_to_json c), recording_shortcut) in
  let shortcut :=
    String.concat "+" (modifier_parts isMacOS e ++ [keyName toUpperCase (key e)]) in
  handleShortcutKeyDown isMacOS toUpperCase e st
  = if mem_string (key e) ["Control"; "Alt"; "Shift"; "Meta"] then st
    else (members_of (Config_to_json (with_text key_shortcut shortcut c)), false).
Proof.
  cbn zeta. unfold handleShortcutKeyDown.
  destruct (mem_string (key e) _); [reflexivity|].
  destruct (decide _) as [_|Hlen].
  - cbn [fst]. f_equal.
  - exfalso. apply Hlen. rewrite length_app. cbn. lia.
Qed.
